(** * AuralFlowAI frontend: link validation, submission client, status poller

    A shallow embedding of
      - [frontend/src/types/upload.ts]          (module [Types]),
      - [frontend/src/utils/link-validation.ts] (module [Validation]),
      - [frontend/src/services/api.ts]          (module [Api]),
    and the properties of the client-side core: the link classifier, the
    multipart submission and the polling session.

    The asynchronous code of [api.ts] is embedded as interaction trees over
    the effects it performs (HTTP requests through axios, awaiting their
    promises, the observer callback, the promise's [resolve]/[reject], and
    [setTimeout]); a handler gives those effects a meaning against an
    environment (the collaborator's replies, the observer's behaviour) and
    records every effect in a trace. The observer is handed the snapshot
    object itself, and [poll] reads the status and the error message of
    that object after the call: the effect of the call answers with the
    snapshot as the observer has left it. *)

From ITree Require Import ITree Eq.Shallow.
From Stdlib Require Import List NArith ZArith Lia Bool String Ascii.
Import ListNotations.
Import ITreeNotations.
Local Open Scope itree_scope.

Set Implicit Arguments.
Set Warnings "-register-all,-notation-for-abbreviation".

(* ===================================================================== *)
(** ** JavaScript strings *)
(* ===================================================================== *)

(** A JavaScript string is a sequence of UTF-16 code units. *)
Module JsString.

Definition t : Type := list N.

(** An ASCII literal of the source text. *)
Definition lit (s : string) : t := map N_of_ascii (list_ascii_of_string s).

Fixpoint eqb (a b : t) : bool :=
  match a, b with
  | [], [] => true
  | x :: a', y :: b' => N.eqb x y && eqb a' b'
  | _, _ => false
  end.

(** ECMAScript [WhiteSpace] and [LineTerminator] code points: what
    [String.prototype.trim] strips from both ends. *)
Definition is_white_space (c : N) : bool :=
  ((9 <=? c) && (c <=? 13)          (* TAB, LF, VT, FF, CR *)
   || (c =? 32)                     (* SPACE *)
   || (c =? 160)                    (* NO-BREAK SPACE *)
   || (c =? 5760)                   (* U+1680 *)
   || ((8192 <=? c) && (c <=? 8202))  (* U+2000 .. U+200A *)
   || (c =? 8232) || (c =? 8233)    (* U+2028, U+2029 *)
   || (c =? 8239)                   (* U+202F *)
   || (c =? 8287)                   (* U+205F *)
   || (c =? 12288)                  (* U+3000 *)
   || (c =? 65279))%N.              (* U+FEFF *)

Fixpoint trim_start (s : t) : t :=
  match s with
  | c :: s' => if is_white_space c then trim_start s' else s
  | [] => []
  end.

(** [s.trim()] *)
Definition trim (s : t) : t := rev (trim_start (rev (trim_start s))).

(** Truthiness of a string value: the empty string is the only falsy one. *)
Definition truthy (s : t) : bool :=
  match s with [] => false | _ :: _ => true end.

Fixpoint starts_with (s needle : t) : bool :=
  match needle, s with
  | [], _ => true
  | n :: needle', c :: s' => N.eqb c n && starts_with s' needle'
  | _ :: _, [] => false
  end.

(** [s.includes(needle)] *)
Fixpoint includes (s needle : t) : bool :=
  starts_with s needle
  || match s with
     | [] => false
     | _ :: s' => includes s' needle
     end.

End JsString.

Definition js (s : string) : JsString.t := JsString.lit s.

(* ===================================================================== *)
(** ** [types/upload.ts] *)
(* ===================================================================== *)

Module Types.

(** ["youtube" | "vimeo" | "google-drive"] *)
Inductive Platform : Type := youtube | vimeo | google_drive.

Record LinkValidation : Type := {
  isValid : bool;
  platform : option Platform;
  error : option JsString.t
}.

(** ["file" | "link"] *)
Inductive UploadType : Type := type_file | type_link.

Definition UploadType_str (ty : UploadType) : JsString.t :=
  match ty with type_file => js "file" | type_link => js "link" end.

(** ["local" | "google-drive" | "youtube" | "vimeo"] *)
Inductive Source : Type :=
  source_local | source_google_drive | source_youtube | source_vimeo.

Definition Source_str (s : Source) : JsString.t :=
  match s with
  | source_local => js "local"
  | source_google_drive => js "google-drive"
  | source_youtube => js "youtube"
  | source_vimeo => js "vimeo"
  end.

(** A browser [File]: a name and its bytes. *)
Record File : Type := { file_name : JsString.t; file_bytes : list N }.

(** [File | string] *)
Inductive UploadData : Type :=
| DataFile (f : File)
| DataString (s : JsString.t).

(** The values a [Record<string, any>] of settings is made of. *)
Inductive Json : Type :=
| JNull
| JBool (b : bool)
| JNumber (z : Z)
| JString (s : JsString.t)
| JArray (items : list Json)
| JObject (fields : list (JsString.t * Json)).

Definition VoiceSettings : Type := list (JsString.t * Json).

Record UploadRequest : Type := {
  type : UploadType;
  data : UploadData;
  source : option Source;
  target_language : option JsString.t;
  voice_settings : option VoiceSettings
}.

Record Metadata : Type := {
  file_size : option Z;
  file_type : option JsString.t;
  is_audio : option bool;
  is_video : option bool;
  metadata_source : option JsString.t;
  metadata_target_language : option JsString.t
}.

Record ApiResponse : Type := {
  success : bool;
  message : JsString.t;
  response_task_id : option JsString.t;
  response_status : JsString.t;
  file_path : option JsString.t;
  original_filename : option JsString.t;
  processing_time : option Z;
  metadata : option Metadata;
  created_at : option JsString.t
}.

Record VoiceCloneStatusResponse : Type := {
  task_id : JsString.t;
  status : JsString.t;
  progress : option Z;
  result_url : option JsString.t;
  error_message : option JsString.t;
  estimated_completion : option JsString.t
}.

End Types.

(* ===================================================================== *)
(** ** [utils/link-validation.ts] *)
(* ===================================================================== *)

Module Validation.
Import Types.

(** The part of a WHATWG [URL] object the validator reads. *)
Record URL : Type := { hostname : JsString.t }.

Section WithParser.

(** [new URL(url)] of the platform: [None] when the constructor throws
    its [TypeError]. *)
Variable URL_new : JsString.t -> option URL.

Definition validateVideoLink (url : JsString.t) : LinkValidation :=
  if negb (JsString.truthy (JsString.trim url)) then
    {| isValid := false; platform := None;
       error := Some (js "Please enter a URL") |}
  else
    match URL_new url with
    | Some urlObj =>
        if JsString.includes (hostname urlObj) (js "youtube.com")
           || JsString.includes (hostname urlObj) (js "youtu.be")
        then {| isValid := true; platform := Some youtube; error := None |}
        else if JsString.includes (hostname urlObj) (js "vimeo.com")
        then {| isValid := true; platform := Some vimeo; error := None |}
        else if JsString.includes (hostname urlObj) (js "drive.google.com")
        then {| isValid := true; platform := Some google_drive; error := None |}
        else
          {| isValid := false; platform := None;
             error :=
               Some (js "Only YouTube, Vimeo, and Google Drive links are supported") |}
    | None =>
        {| isValid := false; platform := None;
           error := Some (js "Please enter a valid URL") |}
    end.

End WithParser.

End Validation.

(* ===================================================================== *)
(** ** [services/api.ts] *)
(* ===================================================================== *)

Module Api.
Import Types.

(** *** Values, completions and the axios client *)

(** Values that are thrown or given to [reject]: objects with a [name]
    and a [message] (an [Error], an [AxiosError], a [TypeError], ...) and
    primitive strings. *)
Inductive JsValue : Type :=
| ErrorObject (name message : JsString.t)
| Primitive (s : JsString.t).

(** [new Error(message)] *)
Definition new_Error (message : JsString.t) : JsValue :=
  ErrorObject (js "Error") message.

(** How an evaluation ends: with a value, or by throwing (for a promise:
    fulfilled, or rejected). *)
Inductive Completion (A : Type) : Type :=
| Normal (a : A)
| Throw (v : JsValue).
Arguments Throw {A} v.

(** [AxiosResponse<T>]: the body and the HTTP status code. *)
Record AxiosResponse (T : Type) : Type := {
  body : T;          (* [response.data] *)
  http_status : Z
}.

(** [FormData]: the entries in the order they were appended. *)
Inductive FormValue : Type :=
| FormFile (f : File)
| FormString (s : JsString.t).

Definition FormData : Type := list (JsString.t * FormValue).

(** [formData.append(name, value)] *)
Definition append (formData : FormData) (name : JsString.t) (value : FormValue)
  : FormData :=
  formData ++ [(name, value)].

(** [formData.getAll(name)] *)
Definition getAll (formData : FormData) (name : JsString.t) : list FormValue :=
  map snd (filter (fun entry => JsString.eqb (fst entry) name) formData).

(** A value given to [append]: a [File] is a file entry, a string a
    string entry. *)
Definition form_value (d : UploadData) : FormValue :=
  match d with
  | DataFile f => FormFile f
  | DataString s => FormString s
  end.

Definition Headers : Type := list (JsString.t * JsString.t).

(** [a || b] on an optional string: [a] unless it is [undefined] or the
    empty string. *)
Definition or_else (a : option JsString.t) (b : JsString.t) : JsString.t :=
  match a with
  | Some s => if JsString.truthy s then s else b
  | None => b
  end.

(** *** Effects *)

(** A pending request of the axios instance, named by its rank among the
    requests of its kind. *)
Definition Request : Type := nat.

Variant apiE : Type -> Type :=
| ApiGet (url : JsString.t) : apiE Request
| ApiPost (url : JsString.t) (formData : FormData) (headers : Headers)
  : apiE Request
| AwaitGet (p : Request)
  : apiE (Completion (AxiosResponse VoiceCloneStatusResponse))
| AwaitPost (p : Request) : apiE (Completion (AxiosResponse ApiResponse))
| CallOnUpdate (status : VoiceCloneStatusResponse)
  : apiE (Completion VoiceCloneStatusResponse)
    (* [onUpdate(status)]: the callback is handed the object itself and may
       assign to its fields; the answer is the object as the callback
       leaves it, or what the callback throws *)
| CallResolve (status : VoiceCloneStatusResponse) : apiE unit
| CallReject (error : JsValue) : apiE unit
| SetTimeout (ms : Z) : apiE unit.

(** Code that may throw: a tree that ends in a completion. *)
Definition JS (A : Type) : Type := itree apiE (Completion A).

Definition ret {A} (a : A) : JS A := Ret (Normal a).

Definition bind {A B} (m : JS A) (k : A -> JS B) : JS B :=
  ITree.bind m (fun c =>
    match c with
    | Normal a => k a
    | Throw v => Ret (Throw v)
    end).

(** [try { m } catch (error) { handler(error) }] *)
Definition try_catch {A} (m : JS A) (handler : JsValue -> itree apiE A)
  : itree apiE A :=
  ITree.bind m (fun c =>
    match c with
    | Normal a => Ret a
    | Throw error => handler error
    end).

(** An effect that cannot throw, lifted. *)
Definition perform {A} (e : apiE A) : JS A :=
  ITree.bind (ITree.trigger e) (fun a => Ret (Normal a)).

Declare Scope js_scope.
Delimit Scope js_scope with js.
Notation "x <~ m ;; k" := (bind m (fun x => k))
  (at level 61, m at next level, right associativity) : js_scope.
Notation "m ;;; k" := (bind m (fun _ => k))
  (at level 61, right associativity) : js_scope.

(** *** The functions of [api.ts] *)

Section Submit.

(** [JSON.stringify] of the platform, on a settings record. *)
Variable JSON_stringify : VoiceSettings -> JsString.t.

(** The form [submitVoiceClone] builds before it posts. *)
Definition buildFormData (request : UploadRequest) : FormData :=
  let formData : FormData := [] in
  let formData :=
    match type request with
    | type_file =>
        let formData := append formData (js "file") (form_value (data request)) in
        append formData (js "source")
          (FormString (match source request with
                       | Some s => Source_str s
                       | None => js "local"
                       end))
    | type_link =>
        let formData := append formData (js "link") (form_value (data request)) in
        append formData (js "source")
          (FormString (match source request with
                       | Some s => Source_str s
                       | None => js "unknown"
                       end))
    end in
  let formData :=
    append formData (js "type") (FormString (UploadType_str (type request))) in
  let formData :=
    match target_language request with
    | Some lang =>
        if JsString.truthy lang
        then append formData (js "target_language") (FormString lang)
        else formData
    | None => formData
    end in
  let formData :=
    match voice_settings request with
    | Some settings =>
        append formData (js "voice_settings")
          (FormString (JSON_stringify settings))
    | None => formData
    end in
  formData.

Definition submitVoiceClone (request : UploadRequest) : JS ApiResponse :=
  (let formData := buildFormData request in
   p <~ perform (ApiPost (js "/voice/voice-clone") formData
                   [(js "Content-Type", js "multipart/form-data")]) ;;
   response <~ ITree.trigger (AwaitPost p) ;;
   ret (body response))%js.

End Submit.

Definition getVoiceCloneStatus (taskId : JsString.t)
  : JS VoiceCloneStatusResponse :=
  (p <~ perform (ApiGet (js "/voice/status/" ++ taskId)) ;;
   response <~ ITree.trigger (AwaitGet p) ;;
   ret (body response))%js.

Section Poll.

Variable taskId : JsString.t.
Variable pollInterval : Z.

(** What one call of [poll] leaves behind: a timer that will call
    [poll] again, or nothing. *)
Definition Rescheduled : unit + unit := inl tt.
Definition Finished : unit + unit := inr tt.

(** The closure [poll] of [pollTaskStatus]. *)
Definition poll : itree apiE (unit + unit) :=
  try_catch
    (status <~ getVoiceCloneStatus taskId ;;
     (* [onUpdate(status)]; below, [status] is the same object, as the
        callback has left it *)
     status <~ ITree.trigger (CallOnUpdate status) ;;
     if JsString.eqb (Types.status status) (js "success") then
       perform (CallResolve status) ;;; ret Finished
     else if JsString.eqb (Types.status status) (js "failure") then
       perform (CallReject
                  (new_Error (or_else (error_message status) (js "Task failed")))) ;;;
       ret Finished
     else
       perform (SetTimeout pollInterval) ;;; ret Rescheduled)%js
    (fun error => ITree.trigger (CallReject error) ;; Ret Finished).

End Poll.

(** The executor of the promise [pollTaskStatus] returns: [poll()], and
    again each time the timer it set fires. The interval is 2000 when the
    argument is left out. *)
Definition pollTaskStatus (taskId : JsString.t) (pollInterval : option Z)
  : itree apiE unit :=
  let pollInterval :=
    match pollInterval with Some ms => ms | None => 2000%Z end in
  ITree.iter (fun _ : unit => poll taskId pollInterval) tt.

End Api.

(* ===================================================================== *)
(** ** The runtime: environment, trace and execution *)
(* ===================================================================== *)

Module Runtime.
Import Types Api.

(** The state of the promise [pollTaskStatus] returns, once settled. *)
Inductive Outcome : Type :=
| Resolved (status : VoiceCloneStatusResponse)
| Rejected (error : JsValue).

(** What the rest of the world decides: the collaborator's reply to the
    [i]-th GET and to a POST, and what the [i]-th invocation of the
    observer callback does: it throws, or it returns and leaves the
    snapshot it was handed in some state (the same record when it only
    reads it). *)
Record Env : Type := {
  status_reply : nat -> Completion (AxiosResponse VoiceCloneStatusResponse);
  submit_reply :
    JsString.t -> FormData -> Completion (AxiosResponse ApiResponse);
  observer :
    nat -> VoiceCloneStatusResponse -> Completion VoiceCloneStatusResponse
}.

(** How a call ended, without what it left. *)
Definition ended {A} (c : Completion A) : Completion unit :=
  match c with
  | Normal _ => Normal tt
  | Throw v => Throw v
  end.

(** The observable effects, in the order they happen. *)
Inductive Event : Type :=
| EvGet (i : nat) (url : JsString.t)
    (* the [i]-th GET leaves: it is in flight from here ... *)
| EvGetSettled (i : nat)
    (reply : Completion (AxiosResponse VoiceCloneStatusResponse))
    (* ... to here, where its promise settles *)
| EvPost (i : nat) (url : JsString.t) (formData : FormData) (headers : Headers)
| EvPostSettled (i : nat) (reply : Completion (AxiosResponse ApiResponse))
| EvOnUpdate (i : nat) (status : VoiceCloneStatusResponse)
    (* the [i]-th invocation of the observer starts ... *)
| EvOnUpdateDone (i : nat) (completion : Completion unit)
    (* ... and ends *)
| EvResolve (status : VoiceCloneStatusResponse)
| EvReject (error : JsValue)
| EvSetTimeout (ms : Z).

Record World : Type := {
  gets : nat;                 (* GETs issued so far *)
  posts : list (JsString.t * FormData);  (* POSTs issued so far *)
  updates : nat;              (* observer invocations so far *)
  outcome : option Outcome;   (* the promise: pending, or settled *)
  trace : list Event
}.

Definition init_world : World :=
  {| gets := 0; posts := []; updates := 0; outcome := None; trace := [] |}.

Definition log (events : list Event) (w : World) : World :=
  {| gets := gets w; posts := posts w; updates := updates w;
     outcome := outcome w; trace := trace w ++ events |}.

(** A promise settles once: later calls of [resolve] and [reject] leave
    it as it is. *)
Definition settle (o : Outcome) (w : World) : World :=
  {| gets := gets w; posts := posts w; updates := updates w;
     outcome := match outcome w with Some o' => Some o' | None => Some o end;
     trace := trace w |}.

Definition handle (env : Env) (T : Type) (e : apiE T) (w : World) : T * World :=
  match e in apiE T return T * World with
  | ApiGet url =>
      (gets w,
       log [EvGet (gets w) url]
         {| gets := S (gets w); posts := posts w; updates := updates w;
            outcome := outcome w; trace := trace w |})
  | AwaitGet p =>
      (status_reply env p, log [EvGetSettled p (status_reply env p)] w)
  | ApiPost url formData headers =>
      (List.length (posts w),
       log [EvPost (List.length (posts w)) url formData headers]
         {| gets := gets w; posts := posts w ++ [(url, formData)];
            updates := updates w; outcome := outcome w; trace := trace w |})
  | AwaitPost p =>
      let reply :=
        match nth_error (posts w) p with
        | Some (url, formData) => submit_reply env url formData
        | None => Throw (Primitive (js "no such request"))
        end in
      (reply, log [EvPostSettled p reply] w)
  | CallOnUpdate status =>
      let completion := observer env (updates w) status in
      (completion,
       log [EvOnUpdate (updates w) status;
            EvOnUpdateDone (updates w) (ended completion)]
         {| gets := gets w; posts := posts w; updates := S (updates w);
            outcome := outcome w; trace := trace w |})
  | CallResolve status => (tt, settle (Resolved status) (log [EvResolve status] w))
  | CallReject error => (tt, settle (Rejected error) (log [EvReject error] w))
  | SetTimeout ms => (tt, log [EvSetTimeout ms] w)
  end.

(** Execution of a tree for at most [fuel] steps (an effect or a silent
    step each): the world reached, and the result with the fuel left if
    the tree has returned. *)
Section Run.
Variable env : Env.

Fixpoint run {R} (fuel : nat) (t : itree apiE R) (w : World)
  : World * option (R * nat) :=
  match observe t with
  | RetF r => (w, Some (r, fuel))
  | TauF t' =>
      match fuel with
      | O => (w, None)
      | S fuel' => run fuel' t' w
      end
  | VisF e k =>
      match fuel with
      | O => (w, None)
      | S fuel' => let '(x, w') := handle env e w in run fuel' (k x) w'
      end
  end.

(** The tree returns [r] and leaves the world [w']. *)
Definition returns {R} (t : itree apiE R) (w : World) (r : R) (w' : World)
  : Prop :=
  exists fuel rest, run fuel t w = (w', Some (r, rest)).

(** The world [w'] is reached while the tree runs. *)
Definition reaches {R} (t : itree apiE R) (w w' : World) : Prop :=
  exists fuel, fst (run fuel t w) = w'.

End Run.

(** *** Reading a trace *)

Definition is_get (e : Event) : bool :=
  match e with EvGet _ _ => true | _ => false end.
Definition is_get_settled (e : Event) : bool :=
  match e with EvGetSettled _ _ => true | _ => false end.
Definition is_settle_call (e : Event) : bool :=
  match e with EvResolve _ | EvReject _ => true | _ => false end.
Definition is_resolve (e : Event) : bool :=
  match e with EvResolve _ => true | _ => false end.
Definition is_reject (e : Event) : bool :=
  match e with EvReject _ => true | _ => false end.
Definition is_timeout (e : Event) : bool :=
  match e with EvSetTimeout _ => true | _ => false end.

Definition count (p : Event -> bool) (tr : list Event) : nat :=
  List.length (filter p tr).

(** GETs that have left and whose promise has not settled. *)
Definition in_flight (tr : list Event) : Z :=
  Z.of_nat (count is_get tr) - Z.of_nat (count is_get_settled tr).

(** The snapshots the observer was invoked with, in order, as they were
    when it was invoked. *)
Fixpoint observed (tr : list Event) : list VoiceCloneStatusResponse :=
  match tr with
  | EvOnUpdate _ status :: tr' => status :: observed tr'
  | _ :: tr' => observed tr'
  | [] => []
  end.

(** *** Sessions *)

(** The polling session, from the call of [pollTaskStatus] on. *)
Definition session (taskId : JsString.t) (pollInterval : option Z)
  : itree apiE unit :=
  pollTaskStatus taskId pollInterval.

(** The [i]-th poll fetches a snapshot, the observer returns, and the
    status of the snapshot as the observer leaves it is neither [success]
    nor [failure]: the poll sets the timer. *)
Definition continues (env : Env) (i : nat) : bool :=
  match status_reply env i with
  | Normal response =>
      match observer env i (body response) with
      | Normal updated =>
          negb (JsString.eqb (status updated) (js "success"))
          && negb (JsString.eqb (status updated) (js "failure"))
      | Throw _ => false
      end
  | Throw _ => false
  end.

(** Every poll before the [n]-th sets the timer, so that the [n]-th poll
    takes place. *)
Definition polled (env : Env) (n : nat) : bool :=
  forallb (continues env) (seq 0 n).

(** The same, as a proposition. *)
Definition all_continue (env : Env) (n : nat) : Prop :=
  forall i, i < n -> continues env i = true.

(** A terminal reply: a transport error, or a snapshot fetched with the
    status [success] or [failure]. *)
Definition terminal
  (reply : Completion (AxiosResponse VoiceCloneStatusResponse)) : bool :=
  match reply with
  | Normal response =>
      JsString.eqb (status (body response)) (js "success")
      || JsString.eqb (status (body response)) (js "failure")
  | Throw _ => true
  end.

(** The observer leaves the status of the [i]-th snapshot as it was
    fetched (it may throw). *)
Definition keeps_status (env : Env) (i : nat) : bool :=
  match status_reply env i with
  | Normal response =>
      match observer env i (body response) with
      | Normal updated =>
          JsString.eqb (status updated) (status (body response))
      | Throw _ => true
      end
  | Throw _ => true
  end.

(** The interval in force: the argument, or the default of the
    parameter. *)
Definition interval_of (pollInterval : option Z) : Z :=
  match pollInterval with Some ms => ms | None => 2000%Z end.

(** *** The effects of a poll, in closed form *)

Section Polls.

Variable env : Env.
Variable taskId : JsString.t.
Variable ms : Z.

(** The URL [getVoiceCloneStatus] requests. *)
Definition status_url : JsString.t := js "/voice/status/" ++ taskId.

(** The last effect of a poll whose observer has returned, on the
    snapshot as the observer left it. *)
Definition verdict (s : VoiceCloneStatusResponse) : Event :=
  if JsString.eqb (status s) (js "success") then EvResolve s
  else if JsString.eqb (status s) (js "failure") then
    EvReject (new_Error (or_else (error_message s) (js "Task failed")))
  else EvSetTimeout ms.

(** The effects of the [i]-th poll, in order. *)
Definition poll_events (i : nat) : list Event :=
  EvGet i status_url :: EvGetSettled i (status_reply env i) ::
  match status_reply env i with
  | Throw e => [EvReject e]
  | Normal response =>
      EvOnUpdate i (body response)
      :: EvOnUpdateDone i (ended (observer env i (body response)))
      :: match observer env i (body response) with
         | Throw v => [EvReject v]
         | Normal updated => [verdict updated]
         end
  end.

(** How the [i]-th poll leaves the promise. *)
Definition poll_outcome (i : nat) : option Outcome :=
  match status_reply env i with
  | Throw e => Some (Rejected e)
  | Normal response =>
      match observer env i (body response) with
      | Throw v => Some (Rejected v)
      | Normal updated =>
          if JsString.eqb (status updated) (js "success") then
            Some (Resolved updated)
          else if JsString.eqb (status updated) (js "failure") then
            Some (Rejected
                    (new_Error (or_else (error_message updated)
                                  (js "Task failed"))))
          else None
      end
  end.

(** Observer invocations once the [i]-th poll is over. *)
Definition poll_updates (i : nat) : nat :=
  match status_reply env i with
  | Normal _ => S i
  | Throw _ => i
  end.

(** The world after the [i]-th poll, started in [w]. *)
Definition after_poll (i : nat) (w : World) : World :=
  {| gets := S i; posts := posts w; updates := poll_updates i;
     outcome := poll_outcome i; trace := trace w ++ poll_events i |}.

(** The world is at the start of the [i]-th poll. *)
Definition at_poll (i : nat) (w : World) : Prop :=
  gets w = i /\ updates w = i /\ outcome w = None.

(** The effects of the polls before the [k]-th. *)
Definition session_events (k : nat) : list Event :=
  flat_map poll_events (seq 0 k).

(** The world in which the [k]-th poll of a session starts. *)
Definition poll_start (k : nat) : World :=
  {| gets := k; posts := []; updates := k; outcome := None;
     trace := session_events k |}.

End Polls.

End Runtime.

(* ===================================================================== *)
(** ** Scenarios *)
(* ===================================================================== *)

(** Concrete collaborators, observers and requests. *)
Module Scenarios.
Import Types Api Runtime.
Local Open Scope string_scope.

Definition snapshot (st : string) (err : option string)
  : VoiceCloneStatusResponse :=
  {| task_id := js "task-1"; status := js st; progress := None;
     result_url := None; error_message := option_map js err;
     estimated_completion := None |}.

Definition ok (s : VoiceCloneStatusResponse)
  : Completion (AxiosResponse VoiceCloneStatusResponse) :=
  Normal {| body := s; http_status := 200 |}.

Definition network_error : JsValue :=
  ErrorObject (js "AxiosError") (js "Network Error").

Definition boom : JsValue := ErrorObject (js "TypeError") (js "boom").

Definition no_submission
  : JsString.t -> FormData -> Completion (AxiosResponse ApiResponse) :=
  fun _ _ => Throw network_error.

(** A collaborator that answers the GETs from a script, then fails. *)
Definition scripted
  (replies : list (Completion (AxiosResponse VoiceCloneStatusResponse)))
  (obs : nat -> VoiceCloneStatusResponse
         -> Completion VoiceCloneStatusResponse) : Env :=
  {| status_reply := fun i => nth i replies (Throw network_error);
     submit_reply := no_submission;
     observer := obs |}.

(** An observer that only reads the snapshot. *)
Definition quiet
  : nat -> VoiceCloneStatusResponse -> Completion VoiceCloneStatusResponse :=
  fun _ s => Normal s.

Definition throwing
  : nat -> VoiceCloneStatusResponse -> Completion VoiceCloneStatusResponse :=
  fun _ _ => Throw boom.

(** [status.status = st] *)
Definition set_status (st : string) (s : VoiceCloneStatusResponse)
  : VoiceCloneStatusResponse :=
  {| task_id := task_id s; status := js st; progress := progress s;
     result_url := result_url s; error_message := error_message s;
     estimated_completion := estimated_completion s |}.

(** [status.error_message = msg] *)
Definition set_error_message (msg : string) (s : VoiceCloneStatusResponse)
  : VoiceCloneStatusResponse :=
  {| task_id := task_id s; status := status s; progress := progress s;
     result_url := result_url s; error_message := Some (js msg);
     estimated_completion := estimated_completion s |}.

(** An observer that assigns to the status of the snapshot it is handed,
    [(s) => { s.status = st }]. *)
Definition overwriting (st : string)
  : nat -> VoiceCloneStatusResponse -> Completion VoiceCloneStatusResponse :=
  fun _ s => Normal (set_status st s).

(** [pending, processing, processing, success] *)
Definition four_replies
  : list (Completion (AxiosResponse VoiceCloneStatusResponse)) :=
  [ok (snapshot "pending" None); ok (snapshot "processing" None);
   ok (snapshot "processing" None); ok (snapshot "success" None)].

Definition env_four : Env := scripted four_replies quiet.

(** The same replies, and the observer throws on the last snapshot. *)
Definition env_four_last_throws : Env :=
  scripted four_replies
    (fun i s => match i with 3 => Throw boom | _ => Normal s end).

(** The same replies, and the observer assigns ["processing"] to the
    status of the last snapshot. *)
Definition env_four_last_overwritten : Env :=
  scripted four_replies
    (fun i s => match i with
                | 3 => Normal (set_status "processing" s)
                | _ => Normal s
                end).

(** [pending, failure] with [error_message: "model timeout"] *)
Definition env_model_timeout : Env :=
  scripted [ok (snapshot "pending" None);
            ok (snapshot "failure" (Some "model timeout"))] quiet.

(** [failure] with [error_message: ""] *)
Definition env_empty_message : Env :=
  scripted [ok (snapshot "failure" (Some ""))] quiet.

(** [failure], and the observer throws *)
Definition env_failure_throwing : Env :=
  scripted [ok (snapshot "failure" (Some "model timeout"))] throwing.

(** [success], and the observer throws *)
Definition env_success_throwing : Env :=
  scripted [ok (snapshot "success" None)] throwing.

(** [success] each time, and the observer assigns ["pending"] to the
    status *)
Definition env_success_overwritten : Env :=
  {| status_reply := fun _ => ok (snapshot "success" None);
     submit_reply := no_submission;
     observer := overwriting "pending" |}.

(** [failure] with [error_message: "model timeout"], and the observer
    assigns another message *)
Definition env_failure_overwritten : Env :=
  scripted [ok (snapshot "failure" (Some "model timeout"))]
    (fun _ s => Normal (set_error_message "seen" s)).

(** [queued], and the observer assigns ["success"] to the status *)
Definition env_queued_overwritten : Env :=
  {| status_reply := fun _ => ok (snapshot "queued" None);
     submit_reply := no_submission;
     observer := overwriting "success" |}.

(** [queued], for ever *)
Definition env_queued : Env :=
  {| status_reply := fun _ => ok (snapshot "queued" None);
     submit_reply := no_submission;
     observer := quiet |}.

(** [queued], and the observer throws *)
Definition env_queued_throwing : Env :=
  {| status_reply := fun _ => ok (snapshot "queued" None);
     submit_reply := no_submission;
     observer := throwing |}.

(** [pending], then the network fails *)
Definition env_network_error : Env :=
  scripted [ok (snapshot "pending" None)] quiet.

(** [pending], then a snapshot on which the observer throws *)
Definition env_observer_fails : Env :=
  scripted [ok (snapshot "pending" None); ok (snapshot "processing" None)]
    (fun i s => match i with 0 => Normal s | _ => Throw boom end).

(** The world of [env_four] in the middle of its second poll. *)
Definition mid_session : World :=
  fst (run env_four 7 (session (js "task-1") None) init_world).

(** A link request whose language is the empty string. *)
Definition request_empty_language : UploadRequest :=
  {| type := type_link; data := DataString (js "https://youtu.be/abc123");
     source := Some source_youtube; target_language := Some (js "");
     voice_settings := None |}.

Definition stringify_stub (settings : VoiceSettings) : JsString.t :=
  js "{...}".

(** A collaborator that accepts every submission. *)
Definition env_accepting : Env :=
  {| status_reply := fun _ => Throw network_error;
     submit_reply := fun _ _ =>
       Normal {| body :=
                   {| success := true; message := js "accepted";
                      response_task_id := Some (js "task-1");
                      response_status := js "pending"; file_path := None;
                      original_filename := None; processing_time := None;
                      metadata := None; created_at := None |};
                 http_status := 200 |};
     observer := quiet |}.

(** What [new URL] answers on the links of the specification's examples. *)
Definition example_parser (url : JsString.t) : option Validation.URL :=
  if JsString.eqb url (js "https://youtu.be/abc123") then
    Some {| Validation.hostname := js "youtu.be" |}
  else if JsString.eqb url (js "https://vimeo.com/12345") then
    Some {| Validation.hostname := js "vimeo.com" |}
  else if JsString.eqb url (js "https://example.com/video") then
    Some {| Validation.hostname := js "example.com" |}
  else None.

End Scenarios.

(* ===================================================================== *)
(** ** The components that use the validator and the client *)
(* ===================================================================== *)

Module Components.
Import Types Api Runtime.

(** *** [utils/link-validation.ts], [getPlatformIcon] *)

(** The name of a platform, as [LinkValidation] carries it. *)
Definition Platform_str (p : Platform) : JsString.t :=
  match p with
  | youtube => js "youtube"
  | vimeo => js "vimeo"
  | google_drive => js "google-drive"
  end.

(** The icons, as UTF-16 code units: U+1F3A5, U+1F4F9, U+1F4BE and
    U+1F517. *)
Definition getPlatformIcon (platform : JsString.t) : JsString.t :=
  if JsString.eqb platform (js "youtube") then [55356; 57253]%N
  else if JsString.eqb platform (js "vimeo") then [55357; 56569]%N
  else if JsString.eqb platform (js "google-drive") then [55357; 56510]%N
  else [55357; 56599]%N.

(** *** [components/link-tab.tsx] *)

(** The two state variables of [LinkTab]. *)
Record LinkTabState : Type := {
  link : JsString.t;
  validation : LinkValidation
}.

(** [{ isValid: false }] *)
Definition not_validated : LinkValidation :=
  {| isValid := false; platform := None; error := None |}.

(** The state of the first render. *)
Definition LinkTab_init : LinkTabState :=
  {| link := []; validation := not_validated |}.

Section LinkTab.

Variable URL_new : JsString.t -> option Validation.URL.

Definition handleLinkChange (value : JsString.t) (st : LinkTabState)
  : LinkTabState :=
  {| link := value;
     validation :=
       if JsString.truthy (JsString.trim value)
       then Validation.validateVideoLink URL_new value
       else not_validated |}.

(** The call of [onLinkSubmit] that [handleSubmit] makes, if it makes
    one. *)
Definition handleSubmit (st : LinkTabState) : option (JsString.t * Platform) :=
  if isValid (validation st) then
    match platform (validation st) with
    | Some p => Some (link st, p)
    | None => None
    end
  else None.

(** Whether the button is disabled: [!validation.isValid || isLoading]. *)
Definition submit_disabled (isLoading : bool) (st : LinkTabState) : bool :=
  negb (isValid (validation st)) || isLoading.

(** The text of the error alert, when the tab renders one:
    [link && !validation.isValid && validation.error]. *)
Definition error_alert (st : LinkTabState) : option JsString.t :=
  if JsString.truthy (link st) && negb (isValid (validation st)) then
    match error (validation st) with
    | Some message => if JsString.truthy message then Some message else None
    | None => None
    end
  else None.

(** The icon of the success line, when the tab renders one:
    [link && validation.isValid && validation.platform]. *)
Definition success_icon (st : LinkTabState) : option JsString.t :=
  if JsString.truthy (link st) && isValid (validation st) then
    match platform (validation st) with
    | Some p => Some (getPlatformIcon (Platform_str p))
    | None => None
    end
  else None.

(** The state after the input has changed to each of the values in turn. *)
Definition LinkTab_after (values : list JsString.t) : LinkTabState :=
  fold_left (fun st value => handleLinkChange value st) values LinkTab_init.

End LinkTab.

(** *** [components/upload-tab.tsx] *)

(** ["local" | "google-drive"] *)
Inductive FileSource : Type := from_local | from_google_drive.

Definition FileSource_source (s : FileSource) : Source :=
  match s with
  | from_local => source_local
  | from_google_drive => source_google_drive
  end.

(** A [File] of the DOM, with the two properties the tab reads. *)
Record DomFile : Type := {
  file : File;
  size : Z;                 (* [file.size], in bytes *)
  mime_type : JsString.t    (* [file.type] *)
}.

Definition validTypes : list JsString.t :=
  [js "video/mp4"; js "video/avi"; js "video/mov"; js "video/wmv";
   js "audio/mp3"; js "audio/wav"; js "audio/mpeg"].

(** What [handleFileSelection] does besides logging: an [alert], or the
    call of [onFileSelect]. *)
Inductive Selection : Type :=
| Alert (message : JsString.t)
| OnFileSelect (f : DomFile) (source : FileSource).

Definition handleFileSelection (f : DomFile) (source : FileSource) : Selection :=
  if negb (existsb (JsString.eqb (mime_type f)) validTypes) then
    Alert (js "Please select a valid video or audio file")
  else if (size f >? 100 * 1024 * 1024)%Z then
    Alert (js "File size must be less than 100MB")
  else OnFileSelect f source.

(** [handleDrag], on the state variable [dragActive]. *)
Definition handleDrag (event_type : JsString.t) (dragActive : bool) : bool :=
  if JsString.eqb event_type (js "dragenter")
     || JsString.eqb event_type (js "dragover") then true
  else if JsString.eqb event_type (js "dragleave") then false
  else dragActive.

(** [handleDrop], on the files of the drop: the new [dragActive] and what
    is done with the first file, if there is one. *)
Definition handleDrop (files : list DomFile) : bool * option Selection :=
  (false,
   match files with
   | first :: _ => Some (handleFileSelection first from_local)
   | [] => None
   end).

(** The [onChange] of the hidden file input. *)
Definition handleInputChange (files : list DomFile) : option Selection :=
  match files with
  | first :: _ => Some (handleFileSelection first from_local)
  | [] => None
  end.

(** *** [app/upload/page.tsx] *)

(** ["upload" | "link"] *)
Inductive Tab : Type := tab_upload | tab_link.

(** The mutation of [useMutation], as the page reads it. *)
Inductive Mutation : Type :=
| Idle
| Pending
| Success (data : ApiResponse)
| Failure (error : JsValue).

Record PageState : Type := {
  activeTab : Tab;
  selectedFile : option DomFile;
  selectedLink : JsString.t;
  mutation : Mutation
}.

Definition Page_init : PageState :=
  {| activeTab := tab_upload; selectedFile := None; selectedLink := [];
     mutation := Idle |}.

(** [mutation.isPending] *)
Definition isPending (st : PageState) : bool :=
  match mutation st with
  | Pending => true
  | _ => false
  end.

Definition handleTabChange (value : Tab) (st : PageState) : PageState :=
  {| activeTab := value; selectedFile := None; selectedLink := [];
     mutation := Idle |}.

(** The [source] of a link request: the platform the link tab reports. *)
Definition Platform_source (p : Platform) : Source :=
  match p with
  | youtube => source_youtube
  | vimeo => source_vimeo
  | google_drive => source_google_drive
  end.

Section Page.

Variable JSON_stringify : VoiceSettings -> JsString.t.

(** [mutation.mutate(request)]: the mutation function is
    [submitVoiceClone]; [onSuccess] resets the form, [onError] leaves it. *)
Definition mutate (request : UploadRequest) (st : PageState)
  : itree apiE PageState :=
  ITree.bind (submitVoiceClone JSON_stringify request) (fun completion =>
    match completion with
    | Normal data =>
        Ret {| activeTab := activeTab st; selectedFile := None;
               selectedLink := []; mutation := Success data |}
    | Throw error =>
        Ret {| activeTab := activeTab st; selectedFile := selectedFile st;
               selectedLink := selectedLink st; mutation := Failure error |}
    end).

Definition handleFileSelect (f : DomFile) (source : FileSource) (st : PageState)
  : itree apiE PageState :=
  let st :=
    {| activeTab := activeTab st; selectedFile := Some f;
       selectedLink := selectedLink st; mutation := Pending |} in
  let request :=
    {| type := type_file; data := DataFile (file f);
       source := Some (FileSource_source source);
       target_language := None; voice_settings := None |} in
  mutate request st.

Definition handleLinkSubmit (link : JsString.t) (p : Platform) (st : PageState)
  : itree apiE PageState :=
  let st :=
    {| activeTab := activeTab st; selectedFile := selectedFile st;
       selectedLink := link; mutation := Pending |} in
  let request :=
    {| type := type_link; data := DataString link;
       source := Some (Platform_source p);
       target_language := None; voice_settings := None |} in
  mutate request st.

(** The text of the banner under the tabs. *)
Definition banner (st : PageState) : option JsString.t :=
  match mutation st with
  | Failure (ErrorObject _ message) => Some message
  | Failure (Primitive _) =>
      Some (js "An error occurred while processing your request")
  | Success data =>
      Some (if JsString.truthy (message data) then message data
            else js "Successfully submitted for processing!")
  | Idle | Pending => None
  end.

Section Wiring.

Variable URL_new : JsString.t -> option Validation.URL.

(** The link tab on the page: the input changes to each of the values,
    then the button is clicked, which runs [handleSubmit] unless the button
    is disabled. *)
Definition submit_link (values : list JsString.t) (st : PageState)
  : itree apiE PageState :=
  if submit_disabled (isPending st) (LinkTab_after URL_new values) then Ret st
  else
    match handleSubmit (LinkTab_after URL_new values) with
    | Some (link, p) => handleLinkSubmit link p st
    | None => Ret st
    end.

End Wiring.

(** The upload tab on the page: [handleDrop] runs on the files of a drop. *)
Definition drop_files (files : list DomFile) (st : PageState)
  : itree apiE PageState :=
  match snd (handleDrop files) with
  | Some (OnFileSelect f source) => handleFileSelect f source st
  | Some (Alert _) => Ret st
  | None => Ret st
  end.

End Page.

End Components.

(* ===================================================================== *)
(** ** More scenarios *)
(* ===================================================================== *)

Module Examples.
Import Types Api Runtime Components.

(** The world in which the session of [Scenarios.env_four] is over. *)
Definition final_four : World :=
  fst (run Scenarios.env_four 19 (session (js "task-1") None) init_world).

(** What [new URL] answers on a link to YouTube and on a link whose host
    only contains that of YouTube. *)
Definition lookalike_parser (url : JsString.t) : option Validation.URL :=
  if JsString.eqb url (js "https://youtube.com/watch?v=1") then
    Some {| Validation.hostname := js "youtube.com" |}
  else if JsString.eqb url (js "https://youtube.com.example.org/watch?v=1") then
    Some {| Validation.hostname := js "youtube.com.example.org" |}
  else None.

End Examples.

(* ===================================================================== *)
(** ** Execution: equations of [run] *)
(* ===================================================================== *)

Import Types Api Runtime.

Unset Implicit Arguments.

Section RunFacts.

Variable env : Env.

Lemma run_eq {R} fuel (t : itree apiE R) w :
  run env fuel t w =
  match observe t with
  | RetF r => (w, Some (r, fuel))
  | TauF t' =>
      match fuel with
      | O => (w, None)
      | S fuel' => run env fuel' t' w
      end
  | VisF e k =>
      match fuel with
      | O => (w, None)
      | S fuel' => let '(x, w') := handle env e w in run env fuel' (k x) w'
      end
  end.
Proof. destruct fuel; reflexivity. Qed.

Lemma run_ret {R} fuel (r : R) w : run env fuel (Ret r) w = (w, Some (r, fuel)).
Proof. rewrite run_eq. reflexivity. Qed.

Lemma run_bind {R Q} (k : R -> itree apiE Q) :
  forall fuel (t : itree apiE R) w,
    run env fuel (ITree.bind t k) w =
    match run env fuel t w with
    | (w', Some (r, rest)) => run env rest (k r) w'
    | (w', None) => (w', None)
    end.
Proof.
  induction fuel as [|fuel IH]; intros t w;
    rewrite (run_eq _ (ITree.bind t k)), (run_eq _ t), observe_bind;
    destruct (observe t) as [r|t'|X e h]; cbn -[run].
  - rewrite run_eq; reflexivity.
  - reflexivity.
  - reflexivity.
  - rewrite (run_eq _ (k r)); reflexivity.
  - apply IH.
  - destruct (handle env e w). apply IH.
Qed.

Lemma run_iter {I R} (step : I -> itree apiE (I + R)) fuel i w :
  run env fuel (ITree.iter step i) w =
  match run env fuel (step i) w with
  | (w', Some (inl j, rest)) =>
      match rest with
      | O => (w', None)
      | S rest' => run env rest' (ITree.iter step j) w'
      end
  | (w', Some (inr r, rest)) => (w', Some (r, rest))
  | (w', None) => (w', None)
  end.
Proof.
  transitivity
    (run env fuel
       (ITree.bind (step i)
          (fun lr => match lr with
                     | inl l => Tau (ITree.iter step l)
                     | inr r => Ret r
                     end)) w).
  - rewrite (run_eq _ (ITree.iter step i)), (run_eq _ (ITree.bind _ _)).
    reflexivity.
  - rewrite run_bind.
    destruct (run env fuel (step i) w) as [w' [[[j|r] rest]|]];
      try reflexivity; rewrite run_eq; reflexivity.
Qed.

Lemma run_trigger {T} (e : apiE T) fuel w :
  run env fuel (ITree.trigger e) w =
  match fuel with
  | O => (w, None)
  | S fuel' => (snd (handle env e w), Some (fst (handle env e w), fuel'))
  end.
Proof.
  destruct fuel as [|fuel]; [reflexivity|].
  rewrite run_eq. cbn -[run handle].
  destruct (handle env e w) as [x w']. apply run_ret.
Qed.

Lemma run_perform {T} (e : apiE T) fuel w :
  run env fuel (perform e) w =
  match fuel with
  | O => (w, None)
  | S fuel' => (snd (handle env e w), Some (Normal (fst (handle env e w)), fuel'))
  end.
Proof.
  unfold perform. rewrite run_bind, run_trigger.
  destruct fuel; [reflexivity|]. apply run_ret.
Qed.

Lemma run_js_bind {A B} (m : JS A) (k : A -> JS B) fuel w :
  run env fuel (Api.bind m k) w =
  match run env fuel m w with
  | (w', Some (Normal a, rest)) => run env rest (k a) w'
  | (w', Some (Throw v, rest)) => (w', Some (Throw v, rest))
  | (w', None) => (w', None)
  end.
Proof.
  unfold Api.bind. rewrite run_bind.
  destruct (run env fuel m w) as [w' [[[a|v] rest]|]]; try reflexivity.
  apply run_ret.
Qed.

Lemma run_try_catch {A} (m : JS A) (handler : JsValue -> itree apiE A) fuel w :
  run env fuel (try_catch m handler) w =
  match run env fuel m w with
  | (w', Some (Normal a, rest)) => (w', Some (a, rest))
  | (w', Some (Throw v, rest)) => run env rest (handler v) w'
  | (w', None) => (w', None)
  end.
Proof.
  unfold try_catch. rewrite run_bind.
  destruct (run env fuel m w) as [w' [[[a|v] rest]|]]; try reflexivity.
  apply run_ret.
Qed.

(** More fuel changes nothing once the tree has returned. *)
Lemma run_mono {R} :
  forall fuel (t : itree apiE R) w w' r rest extra,
    run env fuel t w = (w', Some (r, rest)) ->
    run env (fuel + extra) t w = (w', Some (r, rest + extra)).
Proof.
  induction fuel as [|fuel IH]; intros t w w' r rest extra;
    rewrite !run_eq; destruct (observe t) as [r0|t'|X e h];
    cbn -[run handle]; try discriminate.
  - intros [= <- <- <-]. reflexivity.
  - intros [= <- <- <-]. reflexivity.
  - apply IH.
  - destruct (handle env e w). apply IH.
Qed.

(** A tree returns at most one result, in one world. *)
Lemma returns_unique {R} (t : itree apiE R) w r1 w1 r2 w2 :
  returns env t w r1 w1 -> returns env t w r2 w2 -> r1 = r2 /\ w1 = w2.
Proof.
  intros (f1 & l1 & H1) (f2 & l2 & H2).
  apply run_mono with (extra := f2) in H1.
  apply run_mono with (extra := f1) in H2.
  rewrite Nat.add_comm in H2. rewrite H1 in H2.
  injection H2 as <- <- _. split; reflexivity.
Qed.

(** A tree that has returned returns the same with any larger fuel. *)
Lemma returns_with_more_fuel {R} (t : itree apiE R) w r w' :
  returns env t w r w' ->
  exists fuel, forall more,
    exists rest, run env (fuel + more) t w = (w', Some (r, rest)).
Proof.
  intros (fuel & rest & H). exists fuel. intros more.
  exists (rest + more). apply run_mono, H.
Qed.

End RunFacts.

Lemma run_js_ret env {A} fuel (a : A) w :
  run env fuel (ret a) w = (w, Some (Normal a, fuel)).
Proof. apply run_ret. Qed.

Ltac run_steps :=
  repeat (rewrite ?run_try_catch, ?run_js_bind, ?run_perform, ?run_trigger,
            ?run_bind, ?run_js_ret, ?run_ret;
          cbn -[run js]).

Lemma world_eq (w w' : World) :
  gets w = gets w' -> posts w = posts w' -> updates w = updates w' ->
  outcome w = outcome w' -> trace w = trace w' -> w = w'.
Proof. destruct w, w'; cbn; intros; subst; reflexivity. Qed.

Ltac same_world Ho :=
  f_equal; apply world_eq; cbn; rewrite ?Ho, <- ?app_assoc; reflexivity.

(* ===================================================================== *)
(** ** One poll *)
(* ===================================================================== *)

Section PollFacts.

Variable env : Env.
Variable taskId : JsString.t.
Variable ms : Z.

Lemma poll_run i w fuel :
  at_poll i w ->
  run env (4 + fuel) (poll taskId ms) w =
  (after_poll env taskId ms i w,
   Some (if continues env i then Rescheduled else Finished,
         match status_reply env i with Normal _ => fuel | Throw _ => S fuel end)).
Proof.
  intros (Hg & Hu & Ho).
  unfold poll, getVoiceCloneStatus, after_poll, poll_events, poll_outcome,
    poll_updates, continues, verdict.
  run_steps. rewrite Hg, Hu.
  destruct (status_reply env i) as [response|e]; run_steps.
  - destruct (observer env i (body response)) as [updated|v]; run_steps.
    + destruct (JsString.eqb (status updated) (js "success"));
        [|destruct (JsString.eqb (status updated) (js "failure"))];
        run_steps; same_world Ho.
    + same_world Ho.
  - same_world Ho.
Qed.

Local Notation session_loop :=
  (ITree.iter (fun _ : unit => poll taskId ms) tt).

(** A poll run with any amount of fuel: it is over and has set the timer,
    it is over and has not, or it has got part of the way. *)
Lemma poll_run_any i w fuel :
  at_poll i w ->
  match run env fuel (poll taskId ms) w with
  | (w', Some (inl _, rest)) =>
      continues env i = true /\ w' = after_poll env taskId ms i w
      /\ fuel = 4 + rest
  | (w', Some (inr _, rest)) =>
      continues env i = false /\ w' = after_poll env taskId ms i w
  | (w', None) =>
      gets w' <= S i /\
      exists m, trace w' = trace w ++ firstn m (poll_events env taskId ms i)
  end.
Proof.
  intros Hat.
  destruct fuel as [|[|[|[|fuel]]]].
  5:{ change (S (S (S (S fuel)))) with (4 + fuel).
      rewrite (poll_run i w fuel Hat).
      destruct (continues env i) eqn:Hc; cbn.
      - unfold continues in Hc.
        destruct (status_reply env i); [auto | discriminate].
      - auto. }
  all: destruct Hat as (Hg & Hu & Ho);
    unfold poll, getVoiceCloneStatus, after_poll, poll_events, poll_outcome,
      poll_updates, continues, verdict;
    run_steps; rewrite ?Hg, ?Hu.
  - split; [lia|]. exists 0. cbn. now rewrite app_nil_r.
  - split; [lia|]. exists 1. reflexivity.
  - destruct (status_reply env i) as [response|e]; run_steps.
    + split; [lia|]. exists 2. cbn. now rewrite <- app_assoc.
    + split; [lia|]. exists 2. cbn. now rewrite <- app_assoc.
  - destruct (status_reply env i) as [response|e]; run_steps.
    + destruct (observer env i (body response)) as [updated|v]; run_steps.
      * destruct (JsString.eqb (status updated) (js "success"));
          [|destruct (JsString.eqb (status updated) (js "failure"))];
          run_steps; (split; [lia|]); exists 4; cbn; now rewrite <- !app_assoc.
      * split; [lia|]. exists 4. cbn. now rewrite <- !app_assoc.
    + split; [reflexivity|]. same_world Ho.
Qed.

Lemma at_poll_after i w :
  continues env i = true -> at_poll (S i) (after_poll env taskId ms i w).
Proof.
  unfold continues, at_poll, after_poll, poll_updates, poll_outcome.
  cbn -[js].
  destruct (status_reply env i) as [response|e]; [|discriminate].
  destruct (observer env i (body response)) as [updated|v]; [|discriminate].
  destruct (JsString.eqb (status updated) (js "success"));
    [discriminate|].
  destruct (JsString.eqb (status updated) (js "failure"));
    [discriminate|].
  auto.
Qed.

Lemma session_events_S k :
  session_events env taskId ms (S k) =
  session_events env taskId ms k ++ poll_events env taskId ms k.
Proof.
  unfold session_events. rewrite seq_S, flat_map_app. cbn.
  now rewrite app_nil_r.
Qed.

Lemma after_poll_start k :
  continues env k = true ->
  after_poll env taskId ms k (poll_start env taskId ms k) =
  poll_start env taskId ms (S k).
Proof.
  intros Hc. destruct (at_poll_after k (poll_start env taskId ms k) Hc)
    as (Hg & Hu & Ho).
  apply world_eq;
    [reflexivity | reflexivity | exact Hu | exact Ho
    | symmetry; apply session_events_S].
Qed.

Lemma at_poll_start k : at_poll k (poll_start env taskId ms k).
Proof. repeat split. Qed.

(** A poll that sets the timer costs five steps: four effects and the
    timer's firing. *)
Lemma session_skip k fuel :
  continues env k = true ->
  run env (5 + fuel) session_loop (poll_start env taskId ms k) =
  run env fuel session_loop (poll_start env taskId ms (S k)).
Proof.
  intros Hc. rewrite run_iter.
  change (5 + fuel) with (4 + S fuel).
  rewrite (poll_run k _ (S fuel) (at_poll_start k)), Hc.
  rewrite (after_poll_start k Hc).
  unfold continues in Hc.
  destruct (status_reply env k); [reflexivity|discriminate].
Qed.

Lemma session_skips k fuel :
  all_continue env k ->
  run env (5 * k + fuel) session_loop (poll_start env taskId ms 0) =
  run env fuel session_loop (poll_start env taskId ms k).
Proof.
  induction k as [|k IH] in fuel |- *; intros Hp.
  - reflexivity.
  - replace (5 * S k + fuel) with (5 * k + (5 + fuel)) by lia.
    rewrite IH by (intros i Hi; apply Hp; lia).
    apply session_skip, Hp. lia.
Qed.

(** The last poll of a session. *)
Lemma session_stop k fuel :
  continues env k = false ->
  run env (4 + fuel) session_loop (poll_start env taskId ms k) =
  (after_poll env taskId ms k (poll_start env taskId ms k),
   Some (tt, match status_reply env k with
             | Normal _ => fuel
             | Throw _ => S fuel
             end)).
Proof.
  intros Hc. rewrite run_iter, (poll_run k _ fuel (at_poll_start k)), Hc.
  reflexivity.
Qed.

(** Whatever the fuel, the session has run some polls to the end, each of
    which set the timer, and part of the next. *)
Lemma session_prefix fuel :
  forall k, all_continue env k ->
  exists k' m,
    k <= k' /\ all_continue env k' /\
    gets (fst (run env fuel session_loop (poll_start env taskId ms k))) <= S k' /\
    trace (fst (run env fuel session_loop (poll_start env taskId ms k))) =
    session_events env taskId ms k' ++ firstn m (poll_events env taskId ms k').
Proof.
  induction fuel as [fuel IH] using lt_wf_ind. intros k Hp.
  rewrite run_iter.
  pose proof (poll_run_any k _ fuel (at_poll_start k)) as H.
  destruct (run env fuel (poll taskId ms) (poll_start env taskId ms k))
    as [w' [[[[]|[]] rest]|]].
  - destruct H as (Hc & -> & ->).
    rewrite (after_poll_start k Hc).
    assert (Hp' : all_continue env (S k)).
    { intros i Hi. destruct (Nat.eq_dec i k) as [->|]; [assumption|].
      apply Hp. lia. }
    destruct rest as [|rest].
    + exists (S k), 0. cbn. rewrite app_nil_r. repeat split; auto.
    + destruct (IH rest ltac:(lia) (S k) Hp') as (k' & m & Hle & Hp'' & Hg & Ht).
      exists k', m. repeat split; auto. lia.
  - destruct H as (Hc & ->). exists k, (List.length (poll_events env taskId ms k)).
    rewrite firstn_all. cbn. repeat split; auto.
  - destruct H as (Hg & m & Hm). exists k, m. cbn. repeat split; auto.
Qed.

End PollFacts.

(* ===================================================================== *)
(** ** Traces of a session *)
(* ===================================================================== *)

Section TraceFacts.

Variable env : Env.
Variable taskId : JsString.t.
Variable ms : Z.

Local Notation poll_events := (Runtime.poll_events env taskId ms).
Local Notation session_events := (Runtime.session_events env taskId ms).

Lemma count_app p (a b : list Event) : count p (a ++ b) = count p a + count p b.
Proof. unfold count. now rewrite filter_app, length_app. Qed.

Lemma in_flight_app a b : in_flight (a ++ b) = (in_flight a + in_flight b)%Z.
Proof. unfold in_flight. rewrite !count_app. lia. Qed.

Lemma observed_app a b : observed (a ++ b) = observed a ++ observed b.
Proof.
  induction a as [|e a IH]; [reflexivity|].
  destruct e; cbn; rewrite IH; reflexivity.
Qed.

(** Case analysis on the shape of a poll. *)
Ltac poll_cases i :=
  unfold Runtime.poll_events, verdict;
  destruct (status_reply env i) as [?response|?e];
  [ destruct (observer env i (body response)) as [?updated|?v];
    [ destruct (JsString.eqb (status updated) (js "success"));
      [|destruct (JsString.eqb (status updated) (js "failure"))]
    |]
  |].

(** Enumeration of the prefixes of a list that is written out. *)
Ltac prefixes H l :=
  repeat (destruct l as [|? l];
          [ cbn in H
          | cbn in H; try discriminate H;
            let E := fresh "E" in injection H as E H; try subst ]).

Lemma in_flight_poll i : in_flight (poll_events i) = 0%Z.
Proof. poll_cases i; reflexivity. Qed.

Lemma in_flight_session k : in_flight (session_events k) = 0%Z.
Proof.
  induction k as [|k IH]; [reflexivity|].
  rewrite session_events_S, in_flight_app, IH, in_flight_poll. reflexivity.
Qed.

Lemma in_flight_poll_prefix i l1 l2 :
  poll_events i = l1 ++ l2 -> (0 <= in_flight l1 <= 1)%Z.
Proof.
  intros H. symmetry in H. revert H.
  poll_cases i; intros H; prefixes H l1; cbn; try lia.
Qed.


Lemma app_eq_mid (a b l1 l2 : list Event) x :
  a ++ b = l1 ++ x :: l2 ->
  (exists l, a = l1 ++ x :: l /\ l2 = l ++ b)
  \/ (exists l, l1 = a ++ l /\ b = l ++ x :: l2).
Proof.
  intros H. apply app_eq_app in H as [l [[Ha Hb]|[Ha Hb]]].
  - destruct l as [|y l].
    + right. exists []. rewrite app_nil_r in Ha. cbn in Hb. subst. 
      rewrite app_nil_r. auto.
    + cbn in Hb. injection Hb as <- ->. left. exists l. auto.
  - right. exists l. auto.
Qed.

(** An event of a trace made of whole polls and a tail lies in one of the
    polls, or in the tail. *)
Lemma locate_blocks k : forall tail pre x post,
  session_events k ++ tail = pre ++ x :: post ->
  (exists j l1 l2, j < k /\ poll_events j = l1 ++ x :: l2
                   /\ pre = session_events j ++ l1)
  \/ (exists l1 l2, tail = l1 ++ x :: l2 /\ pre = session_events k ++ l1).
Proof.
  induction k as [|k IH]; intros tail pre x post H.
  - right. exists pre, post. cbn in H. auto.
  - rewrite session_events_S, <- app_assoc in H.
    apply IH in H as [(j & l1 & l2 & Hj & Hp & Hpre)|(l1 & l2 & Ht & Hpre)].
    + left. exists j, l1, l2. repeat split; auto.
    + apply app_eq_mid in Ht as [(l & Hp & Hl)|(l & Hl & Ht)].
      * left. exists k, l1, l. repeat split; auto.
      * right. exists l, l2. split; [assumption|].
        rewrite session_events_S, <- app_assoc. now subst.
Qed.

(** The same for a trace that ends inside the [k]-th poll. *)
Lemma locate k m pre x post :
  session_events k ++ firstn m (poll_events k) = pre ++ x :: post ->
  exists j l1 l2,
    j <= k /\ poll_events j = l1 ++ x :: l2 /\ pre = session_events j ++ l1.
Proof.
  intros H.
  apply locate_blocks in H as [(j & l1 & l2 & Hj & Hp & Hpre)|(l1 & l2 & Ht & Hpre)].
  - exists j, l1, l2. repeat split; auto. lia.
  - exists k, l1, (l2 ++ skipn m (poll_events k)). repeat split; auto.
    rewrite <- (firstn_skipn m (poll_events k)) at 1.
    rewrite Ht, <- app_assoc. reflexivity.
Qed.

(** A prefix of such a trace is made of whole polls and a prefix of the
    next one. *)
Lemma locate_prefix k m pre post :
  session_events k ++ firstn m (poll_events k) = pre ++ post ->
  exists j l1 l2,
    j <= k /\ poll_events j = l1 ++ l2 /\ pre = session_events j ++ l1.
Proof.
  destruct post as [|x post]; intros H.
  - rewrite app_nil_r in H. subst pre.
    exists k, (firstn m (poll_events k)), (skipn m (poll_events k)).
    repeat split; auto. now rewrite firstn_skipn.
  - apply locate in H as (j & l1 & l2 & Hj & Hp & Hpre).
    exists j, l1, (x :: l2). auto.
Qed.

(** A GET is the first effect of its poll. *)
Lemma get_in_poll j l1 l2 n url :
  poll_events j = l1 ++ EvGet n url :: l2 -> l1 = [] /\ n = j.
Proof.
  intros H. symmetry in H. revert H.
  poll_cases j; intros H; prefixes H l1; try discriminate;
    injection H as -> _; auto.
Qed.

(** The observer is invoked right after the GET of its poll has settled,
    with the snapshot that GET has fetched. *)
Lemma update_in_poll j l1 l2 i s :
  poll_events j = l1 ++ EvOnUpdate i s :: l2 ->
  i = j /\
  exists response,
    status_reply env j = Normal response /\ body response = s
    /\ l1 = [EvGet j (status_url taskId); EvGetSettled j (Normal response)].
Proof.
  intros H. symmetry in H. revert H.
  poll_cases j; intros H; prefixes H l1; try discriminate;
    injection H as -> ->; split; auto; eexists; repeat split; eauto.
Qed.

(** A poll that sets the timer has fetched a snapshot and heard the
    observer return. *)
Lemma continues_events i :
  continues env i = true ->
  exists response,
    status_reply env i = Normal response
    /\ In (EvGetSettled i (Normal response)) (poll_events i)
    /\ In (EvOnUpdateDone i (Normal tt)) (poll_events i)
    /\ In (EvSetTimeout ms) (poll_events i)
    /\ observed (poll_events i) = [body response].
Proof.
  unfold continues, Runtime.poll_events, verdict.
  destruct (status_reply env i) as [response|e]; [|discriminate].
  destruct (observer env i (body response)) as [updated|v]; [|discriminate].
  destruct (JsString.eqb (status updated) (js "success"));
    [discriminate|].
  destruct (JsString.eqb (status updated) (js "failure"));
    [discriminate|].
  intros _. exists response. cbn. intuition.
Qed.

Lemma observed_session k :
  all_continue env k -> List.length (observed (session_events k)) = k.
Proof.
  induction k as [|k IH]; intros Hp; [reflexivity|].
  rewrite session_events_S, observed_app, length_app, IH
    by (intros i Hi; apply Hp; lia).
  destruct (continues_events k (Hp k ltac:(lia))) as (r & _ & _ & _ & _ & ->).
  cbn. lia.
Qed.

End TraceFacts.

(* ===================================================================== *)
(** ** Strings *)
(* ===================================================================== *)

Lemma eqb_eq (a b : JsString.t) : JsString.eqb a b = true <-> a = b.
Proof.
  revert b. induction a as [|x a IH]; intros [|y b]; cbn.
  - tauto.
  - split; discriminate.
  - split; discriminate.
  - rewrite andb_true_iff, N.eqb_eq, IH.
    split; [intros [-> ->]; reflexivity | intros [= -> ->]; auto].
Qed.

Lemma eqb_neq (a b : JsString.t) : JsString.eqb a b = false <-> a <> b.
Proof.
  rewrite <- eqb_eq. destruct (JsString.eqb a b); split; congruence.
Qed.

Lemma eqb_refl (a : JsString.t) : JsString.eqb a a = true.
Proof. now apply eqb_eq. Qed.

Lemma trim_start_nil (s : JsString.t) :
  JsString.trim_start s = [] <-> forallb JsString.is_white_space s = true.
Proof.
  induction s as [|c s IH]; cbn; [tauto|].
  destruct (JsString.is_white_space c); cbn; [exact IH|].
  split; discriminate.
Qed.

Lemma trim_start_blank (s : JsString.t) :
  forallb JsString.is_white_space (JsString.trim_start s) = true ->
  JsString.trim_start s = [].
Proof.
  induction s as [|c s IH]; cbn; [reflexivity|].
  destruct (JsString.is_white_space c) eqn:E; [exact IH|].
  cbn. rewrite E. discriminate.
Qed.

(** [trim] leaves nothing exactly of the strings made of white space. *)
Lemma trim_nil (s : JsString.t) :
  JsString.trim s = [] <-> forallb JsString.is_white_space s = true.
Proof.
  unfold JsString.trim. split.
  - intros H. apply (f_equal (@rev N)) in H. rewrite rev_involutive in H.
    cbn in H. apply trim_start_nil in H.
    rewrite forallb_forall in H.
    apply trim_start_nil, trim_start_blank.
    apply forallb_forall. intros c Hc. apply H, in_rev.
    rewrite rev_involutive. exact Hc.
  - intros H. apply trim_start_nil in H. rewrite H. reflexivity.
Qed.

Lemma starts_with_spec (s needle : JsString.t) :
  JsString.starts_with s needle = true <-> exists rest, s = needle ++ rest.
Proof.
  revert s. induction needle as [|n needle IH]; intros s.
  - split; [intros _; exists s; reflexivity | destruct s; reflexivity].
  - destruct s as [|c s]; cbn.
    + split; [discriminate|]. intros [rest H]. discriminate.
    + rewrite andb_true_iff, N.eqb_eq, IH. split.
      * intros [-> [rest ->]]. exists rest. reflexivity.
      * intros [rest [= -> ->]]. split; [reflexivity|]. exists rest. reflexivity.
Qed.

(** [includes] finds the needle exactly where it occurs. *)
Lemma includes_spec (s needle : JsString.t) :
  JsString.includes s needle = true <->
  exists before rest, s = before ++ needle ++ rest.
Proof.
  induction s as [|c s IH]; cbn [JsString.includes];
    rewrite orb_true_iff, starts_with_spec.
  - split.
    + intros [[rest H]|H]; [|discriminate]. exists [], rest. exact H.
    + intros (before & rest & H). left. exists rest.
      destruct before; [exact H|discriminate].
  - rewrite IH. split.
    + intros [[rest H]|(before & rest & H)].
      * exists [], rest. exact H.
      * exists (c :: before), rest. cbn. now rewrite H.
    + intros (before & rest & H). destruct before as [|b before].
      * left. exists rest. exact H.
      * right. injection H as -> H. exists before, rest. exact H.
Qed.

(* ===================================================================== *)
(** ** Sessions *)
(* ===================================================================== *)

Section SessionFacts.

Variable env : Env.
Variable taskId : JsString.t.
Variable pollInterval : option Z.

Local Notation ms := (interval_of pollInterval).
Local Notation poll_events := (Runtime.poll_events env taskId ms).
Local Notation session_events := (Runtime.session_events env taskId ms).
Local Notation poll_start := (Runtime.poll_start env taskId ms).
Local Notation after_poll := (Runtime.after_poll env taskId ms).

(** A session whose [n]-th poll is the first not to set the timer is over
    after that poll. *)
Lemma session_returns n :
  all_continue env n -> continues env n = false ->
  returns env (session taskId pollInterval) init_world tt
    (after_poll n (poll_start n)).
Proof.
  intros Hp Hc. exists (5 * n + 4). eexists.
  change (session taskId pollInterval)
    with (ITree.iter (fun _ : unit => poll taskId ms) tt).
  change init_world with (poll_start 0).
  rewrite session_skips by assumption.
  apply (session_stop env taskId ms n 0 Hc).
Qed.

(** While a session runs, its trace is made of polls that have set the
    timer and of part of the next poll. *)
Lemma session_reaches w :
  reaches env (session taskId pollInterval) init_world w ->
  exists k m,
    all_continue env k /\ gets w <= S k
    /\ trace w = session_events k ++ firstn m (poll_events k).
Proof.
  intros [fuel <-].
  destruct (session_prefix env taskId ms fuel 0) as (k & m & _ & Hp & Hg & Ht).
  - intros i Hi. lia.
  - exists k, m. auto.
Qed.

(** A session reaches the start of each poll that takes place. *)
Lemma session_reaches_poll k fuel :
  all_continue env k ->
  run env (5 * k + fuel) (session taskId pollInterval) init_world =
  run env fuel (session taskId pollInterval) (poll_start k).
Proof. intros Hp. apply (session_skips env taskId ms k fuel Hp). Qed.

(** The first poll that does not set the timer. *)
Lemma first_stop n :
  continues env n = false ->
  exists m, m <= n /\ all_continue env m /\ continues env m = false.
Proof.
  induction n as [n IH] using lt_wf_ind. intros Hc.
  destruct (forallb (continues env) (seq 0 n)) eqn:E.
  - exists n. split; [lia|]. split; [|assumption].
    intros i Hi. rewrite forallb_forall in E. apply E, in_seq. lia.
  - assert (exists i, i < n /\ continues env i = false) as (i & Hi & Hci).
    { clear -E. induction n as [|n IHn]; [discriminate|].
      rewrite seq_S, forallb_app in E. cbn in E.
      rewrite andb_true_r in E. apply andb_false_iff in E as [E|E].
      - destruct (IHn E) as (i & Hi & Hci). exists i. split; [lia|assumption].
      - exists n. split; [lia|assumption]. }
    destruct (IH i Hi Hci) as (m & Hm & Hp & Hcm).
    exists m. repeat split; auto. lia.
Qed.

Lemma terminal_stops n :
  terminal (status_reply env n) = true -> keeps_status env n = true ->
  continues env n = false.
Proof.
  unfold terminal, keeps_status, continues.
  destruct (status_reply env n) as [response|e]; [|reflexivity].
  destruct (observer env n (body response)) as [updated|v]; [|reflexivity].
  intros Ht Hk. apply eqb_eq in Hk. rewrite Hk.
  destruct (JsString.eqb (status (body response)) (js "success"));
    [reflexivity|].
  destruct (JsString.eqb (status (body response)) (js "failure"));
    [reflexivity|discriminate].
Qed.

(** What a poll does when the observer returns: read off the snapshot as
    the observer leaves it. *)
Lemma poll_after_observer n response updated :
  status_reply env n = Normal response ->
  observer env n (body response) = Normal updated ->
  continues env n
  = negb (JsString.eqb (status updated) (js "success"))
    && negb (JsString.eqb (status updated) (js "failure"))
  /\ poll_events n
     = [EvGet n (status_url taskId); EvGetSettled n (Normal response);
        EvOnUpdate n (body response); EvOnUpdateDone n (Normal tt);
        verdict ms updated]
  /\ poll_outcome env n
     = (if JsString.eqb (status updated) (js "success") then
          Some (Resolved updated)
        else if JsString.eqb (status updated) (js "failure") then
          Some (Rejected (new_Error (or_else (error_message updated)
                                       (js "Task failed"))))
        else None)
  /\ poll_updates env n = S n.
Proof.
  intros Hr Ho.
  unfold continues, Runtime.poll_events, poll_outcome, poll_updates.
  rewrite Hr, Ho. repeat split.
Qed.

(** Polls that set the timer call neither [resolve] nor [reject]. *)
Lemma quiet_session k :
  all_continue env k ->
  count is_resolve (session_events k) = 0
  /\ count is_reject (session_events k) = 0
  /\ count is_settle_call (session_events k) = 0.
Proof.
  induction k as [|k IH]; intros Hp; [repeat split|].
  destruct IH as (IH1 & IH2 & IH3); [intros i Hi; apply Hp; lia|].
  rewrite session_events_S, !count_app, IH1, IH2, IH3.
  specialize (Hp k ltac:(lia)). revert Hp.
  unfold continues, Runtime.poll_events, verdict.
  destruct (status_reply env k) as [response|e]; [|discriminate].
  destruct (observer env k (body response)) as [updated|v]; [|discriminate].
  destruct (JsString.eqb (status updated) (js "success"));
    [discriminate|].
  destruct (JsString.eqb (status updated) (js "failure"));
    [discriminate|repeat split].
Qed.

(** The poll that does not set the timer calls one of them, once. *)
Lemma one_settle_call_in_last_poll n :
  continues env n = false ->
  count is_resolve (poll_events n) + count is_reject (poll_events n) = 1
  /\ count is_settle_call (poll_events n) = 1
  /\ count is_timeout (poll_events n) = 0
  /\ poll_outcome env n <> None.
Proof.
  unfold continues, Runtime.poll_events, poll_outcome, verdict.
  destruct (status_reply env n) as [response|e].
  - destruct (observer env n (body response)) as [updated|v].
    + destruct (JsString.eqb (status updated) (js "success"));
        [|destruct (JsString.eqb (status updated) (js "failure"))];
        try discriminate; intros _; cbn; repeat split; discriminate.
    + intros _; cbn; repeat split; discriminate.
  - intros _; cbn; repeat split; discriminate.
Qed.

(** A session returns in one world only. *)
Lemma session_returns_once w1 w2 :
  returns env (session taskId pollInterval) init_world tt w1 ->
  returns env (session taskId pollInterval) init_world tt w2 ->
  w2 = w1.
Proof.
  intros H1 H2. symmetry.
  exact (proj2 (returns_unique env _ _ _ _ _ _ H1 H2)).
Qed.

End SessionFacts.

(* ===================================================================== *)
(** ** The polling session: every point, and every end *)
(* ===================================================================== *)

Section SessionPoints.

Variable env : Env.
Variable taskId : JsString.t.
Variable pollInterval : option Z.

Local Notation ms := (interval_of pollInterval).
Local Notation poll_events := (Runtime.poll_events env taskId ms).
Local Notation session_events := (Runtime.session_events env taskId ms).
Local Notation poll_start := (Runtime.poll_start env taskId ms).
Local Notation after_poll := (Runtime.after_poll env taskId ms).
Local Notation session_loop :=
  (ITree.iter (fun _ : unit => poll taskId ms) tt).

(** A poll that is not over has called neither [resolve] nor [reject]. *)
Lemma poll_run_quiet i w fuel :
  at_poll i w ->
  snd (run env fuel (poll taskId ms) w) = None ->
  outcome (fst (run env fuel (poll taskId ms) w)) = None
  /\ count is_settle_call (trace (fst (run env fuel (poll taskId ms) w)))
     = count is_settle_call (trace w).
Proof.
  intros Hat.
  destruct fuel as [|[|[|[|fuel]]]].
  5:{ change (S (S (S (S fuel)))) with (4 + fuel).
      rewrite (poll_run env taskId ms i w fuel Hat). discriminate. }
  all: destruct Hat as (Hg & Hu & Ho);
    unfold poll, getVoiceCloneStatus; run_steps; rewrite ?Hg, ?Hu.
  - auto.
  - intros _. unfold count. rewrite !filter_app, !length_app. cbn.
    split; [exact Ho|lia].
  - destruct (status_reply env i) as [response|e]; run_steps; intros _;
      unfold count; rewrite !filter_app, !length_app; cbn;
      (split; [exact Ho|lia]).
  - destruct (status_reply env i) as [response|e]; run_steps.
    + destruct (observer env i (body response)) as [updated|v]; run_steps.
      * destruct (JsString.eqb (status updated) (js "success"));
          [|destruct (JsString.eqb (status updated) (js "failure"))];
          run_steps; intros _; unfold count;
          rewrite !filter_app, !length_app; cbn; (split; [exact Ho|lia]).
      * intros _; unfold count; rewrite !filter_app, !length_app; cbn;
          (split; [exact Ho|lia]).
    + discriminate.
Qed.

(** A session is over only after a poll that did not set the timer, and
    until then it has called neither [resolve] nor [reject]. *)
Lemma session_point fuel :
  forall k, all_continue env k ->
  match run env fuel session_loop (poll_start k) with
  | (w, Some _) =>
      exists n,
        all_continue env n /\ continues env n = false
        /\ w = after_poll n (poll_start n)
  | (w, None) =>
      outcome w = None /\ count is_settle_call (trace w) = 0
  end.
Proof.
  induction fuel as [fuel IH] using lt_wf_ind. intros k Hp.
  rewrite run_iter.
  pose proof (poll_run_any env taskId ms k _ fuel (at_poll_start env taskId ms k))
    as H.
  pose proof (poll_run_quiet k _ fuel (at_poll_start env taskId ms k)) as Hq.
  destruct (quiet_session env taskId pollInterval k Hp) as (_ & _ & Hk).
  destruct (run env fuel (poll taskId ms) (poll_start k))
    as [w' [[[[]|[]] rest]|]].
  - destruct H as (Hc & -> & ->).
    rewrite (after_poll_start env taskId ms k Hc).
    assert (Hp' : all_continue env (S k)).
    { intros i Hi. destruct (Nat.eq_dec i k) as [->|]; [assumption|].
      apply Hp. lia. }
    destruct rest as [|rest].
    + cbn [outcome trace Runtime.poll_start]. split; [reflexivity|].
      apply (quiet_session env taskId pollInterval (S k) Hp').
    + apply (IH rest ltac:(lia) (S k) Hp').
  - destruct H as (Hc & ->). exists k. auto.
  - destruct (Hq eq_refl) as (Ho & Hn). cbn [fst] in Ho, Hn.
    split; [exact Ho|]. rewrite Hn. exact Hk.
Qed.

(** Timers of polls that set one. *)
Lemma timeouts_in_session k :
  all_continue env k -> count is_timeout (session_events k) = k.
Proof.
  induction k as [|k IH]; intros Hp; [reflexivity|].
  rewrite session_events_S, count_app, IH by (intros i Hi; apply Hp; lia).
  specialize (Hp k ltac:(lia)). revert Hp.
  unfold continues, Runtime.poll_events, verdict.
  destruct (status_reply env k) as [response|e]; [|discriminate].
  destruct (observer env k (body response)) as [updated|v]; [|discriminate].
  destruct (JsString.eqb (status updated) (js "success"));
    [discriminate|].
  destruct (JsString.eqb (status updated) (js "failure"));
    [discriminate|]. intros _. cbn. lia.
Qed.

(** The end of a session, whatever the collaborator and the observer. *)
Lemma session_end_form w :
  returns env (session taskId pollInterval) init_world tt w ->
  exists n,
    all_continue env n /\ continues env n = false
    /\ w = after_poll n (poll_start n).
Proof.
  intros (fuel & rest & H).
  pose proof (session_point fuel 0 ltac:(intros i Hi; lia)) as Hpt.
  change (session taskId pollInterval) with session_loop in H.
  change init_world with (poll_start 0) in H.
  rewrite H in Hpt. exact Hpt.
Qed.

(** A point of a session: before any call of [resolve] or [reject], or at
    the end. *)
Lemma session_point_form w :
  reaches env (session taskId pollInterval) init_world w ->
  (outcome w = None /\ count is_settle_call (trace w) = 0)
  \/ exists n,
       all_continue env n /\ continues env n = false
       /\ w = after_poll n (poll_start n).
Proof.
  intros (fuel & H).
  pose proof (session_point fuel 0 ltac:(intros i Hi; lia)) as Hpt.
  change (session taskId pollInterval) with session_loop in H.
  change init_world with (poll_start 0) in H.
  destruct (run env fuel session_loop (poll_start 0)) as [w' [r|]].
  - right. cbn in H. subst. exact Hpt.
  - left. cbn in H. subst. exact Hpt.
Qed.

End SessionPoints.

(* ===================================================================== *)
(** ** The polling session: outcomes *)
(* ===================================================================== *)

Lemma polled_iff env n : polled env n = true <-> all_continue env n.
Proof.
  unfold polled, all_continue. rewrite forallb_forall. split.
  - intros H i Hi. apply H, in_seq. lia.
  - intros H i Hi. apply H. apply in_seq in Hi. lia.
Qed.

(** The end of a session, field by field. *)
Lemma session_ends env taskId pollInterval n :
  polled env n = true -> continues env n = false ->
  exists w,
    returns env (session taskId pollInterval) init_world tt w
    /\ gets w = S n
    /\ updates w = poll_updates env n
    /\ outcome w = poll_outcome env n
    /\ trace w =
       session_events env taskId (interval_of pollInterval) n
       ++ poll_events env taskId (interval_of pollInterval) n.
Proof.
  intros Hp Hc. apply polled_iff in Hp.
  eexists. split; [apply (session_returns env taskId pollInterval n Hp Hc)|].
  repeat split.
Qed.

(** The [n]-th poll of a session takes place, that is its GET is issued,
    exactly when every poll before it has set the timer. *)
Lemma polled_takes_place env taskId pollInterval n :
  polled env n = true <->
  exists w,
    reaches env (session taskId pollInterval) init_world w
    /\ In (EvGet n (status_url taskId)) (trace w).
Proof.
  split.
  - intros Hp. apply polled_iff in Hp.
    pose proof (session_reaches_poll env taskId pollInterval n 1 Hp) as Hrun.
    assert (Hone :
      fst (run env 1 (session taskId pollInterval)
             (poll_start env taskId (interval_of pollInterval) n)) =
      log [EvGet n (status_url taskId)]
        {| gets := S n; posts := []; updates := n; outcome := None;
           trace := session_events env taskId (interval_of pollInterval) n |}).
    { change (session taskId pollInterval)
        with (ITree.iter
                (fun _ : unit => poll taskId (interval_of pollInterval)) tt).
      rewrite run_iter. unfold poll, getVoiceCloneStatus. run_steps.
      reflexivity. }
    eexists. split; [eexists; rewrite Hrun; exact Hone|].
    cbn [trace log]. apply in_or_app. right. left. reflexivity.
  - intros (w & Hreach & Hin).
    destruct (session_reaches env taskId pollInterval w Hreach)
      as (k & m & Hk & _ & Htr).
    apply in_split in Hin as (pre & post & Hsplit).
    rewrite Hsplit in Htr. symmetry in Htr.
    apply locate in Htr as (j & l1 & l2 & Hj & Hp & _).
    apply get_in_poll in Hp as [_ ->].
    apply polled_iff. intros i Hi. apply Hk. lia.
Qed.

(** A poll sets the timer exactly when it fetches a snapshot, the observer
    returns on it, and the status of the snapshot as the observer leaves it
    is neither [success] nor [failure]. *)
Lemma continues_iff env i :
  continues env i = true <->
  exists response updated,
    status_reply env i = Normal response
    /\ observer env i (body response) = Normal updated
    /\ status updated <> js "success"
    /\ status updated <> js "failure".
Proof.
  unfold continues. split.
  - destruct (status_reply env i) as [response|e]; [|discriminate].
    destruct (observer env i (body response)) as [updated|v] eqn:Ho;
      [|discriminate].
    rewrite andb_true_iff, !negb_true_iff, !eqb_neq.
    intros [H1 H2]. exists response, updated. auto.
  - intros (response & updated & -> & -> & H1 & H2).
    apply eqb_neq in H1, H2. rewrite H1, H2. reflexivity.
Qed.

(** A session all of whose polls set the timer never ends and never
    settles the promise, and it issues a GET of every rank. *)
Lemma session_never_ends env taskId pollInterval :
  (forall i, continues env i = true) ->
  (forall fuel,
     snd (run env fuel (session taskId pollInterval) init_world) = None
     /\ outcome (fst (run env fuel (session taskId pollInterval) init_world))
        = None)
  /\ forall n,
       exists w,
         reaches env (session taskId pollInterval) init_world w
         /\ In (EvGet n (status_url taskId)) (trace w).
Proof.
  intros Hall. split.
  - intros fuel.
    pose proof (session_point env taskId pollInterval fuel 0
                  ltac:(intros i Hi; lia)) as Hpt.
    change (session taskId pollInterval)
      with (ITree.iter
              (fun _ : unit => poll taskId (interval_of pollInterval)) tt).
    change init_world
      with (poll_start env taskId (interval_of pollInterval) 0).
    destruct (run env fuel _ _) as [w [r|]].
    + destruct Hpt as (n & _ & Hc & _). rewrite Hall in Hc. discriminate.
    + split; [reflexivity|]. exact (proj1 Hpt).
  - intros n. apply polled_takes_place. apply polled_iff.
    intros i _. apply Hall.
Qed.

(** C1, as amended. For every task identifier and every sequence of replies
    to the status requests in which some reply is a transport error, or a
    snapshot fetched with the status [success] or [failure] whose status the
    observer does not overwrite (it may modify other fields, and it may
    throw), the session of [pollTaskStatus] returns, and in the world it
    leaves the calls of [resolve] and of [reject] number one in all, and the
    promise is settled. The world a session returns in is unique. *)
Theorem poll_settles_exactly_once taskId pollInterval env n :
  terminal (status_reply env n) = true ->
  keeps_status env n = true ->
  exists w,
    returns env (session taskId pollInterval) init_world tt w
    /\ count is_resolve (trace w) + count is_reject (trace w) = 1
    /\ outcome w <> None
    /\ forall w', returns env (session taskId pollInterval) init_world tt w' ->
                  w' = w.
Proof.
  intros Ht Hk. pose proof (terminal_stops env n Ht Hk) as Hstop.
  destruct (first_stop env n Hstop) as (m & _ & Hp & Hc).
  pose proof Hp as Hq. apply polled_iff in Hp.
  destruct (session_ends env taskId pollInterval m Hp Hc)
    as (w & Hr & _ & _ & Ho & Htr).
  destruct (one_settle_call_in_last_poll env taskId pollInterval m Hc)
    as (Hone & _ & _ & Hsome).
  exists w. repeat split.
  - assumption.
  - rewrite Htr, !count_app.
    destruct (quiet_session env taskId pollInterval m Hq) as (-> & -> & _).
    exact Hone.
  - now rewrite Ho.
  - intros w' Hr'. exact (session_returns_once env taskId pollInterval w w' Hr Hr').
Qed.

Lemma poll_settles_exactly_once_witness :
  terminal (status_reply Scenarios.env_four 3) = true
  /\ keeps_status Scenarios.env_four 3 = true
  /\ exists w,
       returns Scenarios.env_four (session (js "task-1") None) init_world tt w
       /\ count is_resolve (trace w) + count is_reject (trace w) = 1
       /\ outcome w <> None
       /\ forall w',
            returns Scenarios.env_four (session (js "task-1") None)
              init_world tt w' ->
            w' = w.
Proof.
  split; [reflexivity|]. split; [reflexivity|].
  apply (poll_settles_exactly_once (js "task-1") None Scenarios.env_four 3);
    reflexivity.
Defined.

(** C1, as stated, fails: every snapshot is fetched with the status
    [success], and the observer assigns ["pending"] to the status of each
    snapshot it is handed and returns; the poll then reads ["pending"] and
    sets the timer, each time: the session never returns, calls neither
    [resolve] nor [reject], and fetches again and again. *)
Lemma overwritten_success_never_settles :
  (forall i,
     status_reply Scenarios.env_success_overwritten i
     = Scenarios.ok (Scenarios.snapshot "success" None))
  /\ (forall i, terminal (status_reply Scenarios.env_success_overwritten i) = true)
  /\ (forall fuel,
        snd (run Scenarios.env_success_overwritten fuel
               (session (js "task-1") None) init_world) = None
        /\ outcome (fst (run Scenarios.env_success_overwritten fuel
                           (session (js "task-1") None) init_world)) = None)
  /\ (forall n,
        exists w,
          reaches Scenarios.env_success_overwritten
            (session (js "task-1") None) init_world w
          /\ In (EvGet n (status_url (js "task-1"))) (trace w))
  /\ ~ (exists w,
          returns Scenarios.env_success_overwritten
            (session (js "task-1") None) init_world tt w).
Proof.
  assert (Hall : forall i, continues Scenarios.env_success_overwritten i = true).
  { intros i. reflexivity. }
  destruct (session_never_ends Scenarios.env_success_overwritten
              (js "task-1") None Hall) as [Hnever Hgets].
  split; [intros i; reflexivity|].
  split; [intros i; reflexivity|].
  split; [exact Hnever|].
  split; [exact Hgets|].
  intros (w & fuel & rest & Hrun).
  pose proof (proj1 (Hnever fuel)) as Hnone.
  rewrite Hrun in Hnone. discriminate Hnone.
Qed.

(** Each poll issues one GET. *)
Lemma gets_in_session env taskId ms k :
  count is_get (session_events env taskId ms k) = k.
Proof.
  induction k as [|k IH]; [reflexivity|].
  rewrite session_events_S, count_app, IH.
  unfold poll_events, verdict.
  destruct (status_reply env k) as [response|e]; [|cbn; lia].
  destruct (observer env k (body response)) as [updated|v]; [|cbn; lia].
  destruct (JsString.eqb (status updated) (js "success"));
    [|destruct (JsString.eqb (status updated) (js "failure"))];
    cbn; lia.
Qed.

(** The GETs of a session that has ended with its [n]-th poll. *)
Lemma gets_at_end env taskId ms n :
  count is_get (session_events env taskId ms n ++ poll_events env taskId ms n)
  = S n.
Proof. rewrite <- session_events_S. apply gets_in_session. Qed.

(** C2, as amended. For every poll in which the fetched snapshot has status
    [success] and on which the observer returns normally without modifying
    the snapshot, the session resolves the promise with exactly that snapshot
    and returns: the call of [resolve] is its last effect, and the GET of
    that poll is the last GET issued. *)
Theorem success_resolves taskId pollInterval env n response :
  polled env n = true ->
  status_reply env n = Normal response ->
  status (body response) = js "success" ->
  observer env n (body response) = Normal (body response) ->
  exists w pre,
    returns env (session taskId pollInterval) init_world tt w
    /\ outcome w = Some (Resolved (body response))
    /\ trace w = pre ++ [EvResolve (body response)]
    /\ gets w = S n
    /\ count is_get (trace w) = S n.
Proof.
  intros Hp Hr Hs Ho.
  destruct (poll_after_observer env taskId pollInterval n response _ Hr Ho)
    as (Hcont & Hev & Hpo & _).
  rewrite Hs in Hcont, Hpo. unfold verdict in Hev. rewrite Hs in Hev.
  destruct (session_ends env taskId pollInterval n Hp Hcont)
    as (w & Hret & Hg & _ & Hout & Htr).
  exists w. eexists. split; [exact Hret|]. repeat split.
  - rewrite Hout. exact Hpo.
  - rewrite Htr, Hev. cbn -[js].
    change (?a :: ?b :: ?c :: ?d :: [?e]) with ([a; b; c; d] ++ [e]).
    rewrite app_assoc. reflexivity.
  - exact Hg.
  - rewrite Htr. apply gets_at_end.
Qed.

Lemma success_resolves_witness :
  polled Scenarios.env_four 3 = true
  /\ status_reply Scenarios.env_four 3
     = Normal {| body := Scenarios.snapshot "success" None; http_status := 200 |}
  /\ status (Scenarios.snapshot "success" None) = js "success"
  /\ observer Scenarios.env_four 3 (Scenarios.snapshot "success" None)
     = Normal (Scenarios.snapshot "success" None)
  /\ exists w pre,
       returns Scenarios.env_four (session (js "task-1") (Some 500%Z))
         init_world tt w
       /\ outcome w = Some (Resolved (Scenarios.snapshot "success" None))
       /\ trace w = pre ++ [EvResolve (Scenarios.snapshot "success" None)]
       /\ gets w = 4
       /\ count is_get (trace w) = 4.
Proof.
  repeat (split; [reflexivity|]).
  apply (success_resolves (js "task-1") (Some 500%Z) Scenarios.env_four 3
           {| body := Scenarios.snapshot "success" None; http_status := 200 |});
    reflexivity.
Defined.

(** C2, as stated, fails, in two ways. The snapshot of the first poll has
    status [success] and the observer throws on it: the session rejects the
    promise with the thrown value and never resolves it. And every snapshot
    is fetched with the status [success] and the observer assigns
    ["pending"] to its status and returns: the first poll sets the timer, a
    second GET follows, and the promise is never resolved. *)
Lemma success_poll_not_always_resolved :
  (status_reply Scenarios.env_success_throwing 0
   = Scenarios.ok (Scenarios.snapshot "success" None)
   /\ status (Scenarios.snapshot "success" None) = js "success"
   /\ (exists w,
         returns Scenarios.env_success_throwing (session (js "task-1") None)
           init_world tt w
         /\ outcome w = Some (Rejected Scenarios.boom)
         /\ count is_resolve (trace w) = 0)
   /\ ~ (exists w,
           returns Scenarios.env_success_throwing (session (js "task-1") None)
             init_world tt w
           /\ outcome w = Some (Resolved (Scenarios.snapshot "success" None))))
  /\ (status_reply Scenarios.env_success_overwritten 0
      = Scenarios.ok (Scenarios.snapshot "success" None)
      /\ observer Scenarios.env_success_overwritten 0
           (Scenarios.snapshot "success" None)
         = Normal (Scenarios.snapshot "pending" None)
      /\ (exists w,
            reaches Scenarios.env_success_overwritten
              (session (js "task-1") None) init_world w
            /\ trace w
               = [EvGet 0 (status_url (js "task-1"));
                  EvGetSettled 0 (Scenarios.ok (Scenarios.snapshot "success" None));
                  EvOnUpdate 0 (Scenarios.snapshot "success" None);
                  EvOnUpdateDone 0 (Normal tt);
                  EvSetTimeout 2000;
                  EvGet 1 (status_url (js "task-1"))])
      /\ forall fuel,
           outcome (fst (run Scenarios.env_success_overwritten fuel
                           (session (js "task-1") None) init_world)) = None).
Proof.
  assert (Hr : returns Scenarios.env_success_throwing (session (js "task-1") None)
                 init_world tt
                 (fst (run Scenarios.env_success_throwing 4
                         (session (js "task-1") None) init_world))).
  { exists 4, 0. vm_compute. reflexivity. }
  split.
  - split; [reflexivity|]. split; [reflexivity|]. split.
    + eexists. split; [exact Hr|]. split; vm_compute; reflexivity.
    + intros (w & Hw & Ho).
      rewrite (session_returns_once _ _ _ _ _ Hr Hw) in Ho.
      vm_compute in Ho. discriminate Ho.
  - split; [reflexivity|]. split; [reflexivity|]. split.
    + eexists. split; [exists 6; reflexivity|]. vm_compute. reflexivity.
    + intros fuel.
      apply (session_never_ends Scenarios.env_success_overwritten
               (js "task-1") None).
      intros i. reflexivity.
Qed.

(** C5. If the GET of a poll fails with a transport error, the session
    rejects the promise with that very value and returns: the call of
    [reject] directly follows the failure (the observer is not invoked on
    that poll), and the failed GET is the last GET issued. *)
Theorem transport_error_rejects taskId pollInterval env n e :
  polled env n = true ->
  status_reply env n = Throw e ->
  exists w pre,
    returns env (session taskId pollInterval) init_world tt w
    /\ outcome w = Some (Rejected e)
    /\ trace w = pre ++ [EvGet n (status_url taskId);
                         EvGetSettled n (Throw e); EvReject e]
    /\ gets w = S n
    /\ count is_get (trace w) = S n
    /\ updates w = n.
Proof.
  intros Hp Hr.
  assert (Hc : continues env n = false).
  { unfold continues. rewrite Hr. reflexivity. }
  destruct (session_ends env taskId pollInterval n Hp Hc)
    as (w & Hret & Hg & Hu & Hout & Htr).
  exists w. eexists. split; [exact Hret|]. repeat split.
  - rewrite Hout. unfold poll_outcome. rewrite Hr. reflexivity.
  - rewrite Htr. unfold poll_events. rewrite Hr. reflexivity.
  - exact Hg.
  - rewrite Htr. apply gets_at_end.
  - rewrite Hu. unfold poll_updates. rewrite Hr. reflexivity.
Qed.

Lemma transport_error_rejects_witness :
  polled Scenarios.env_network_error 1 = true
  /\ status_reply Scenarios.env_network_error 1 = Throw Scenarios.network_error
  /\ exists w pre,
       returns Scenarios.env_network_error (session (js "task-1") None)
         init_world tt w
       /\ outcome w = Some (Rejected Scenarios.network_error)
       /\ trace w = pre ++ [EvGet 1 (status_url (js "task-1"));
                            EvGetSettled 1 (Throw Scenarios.network_error);
                            EvReject Scenarios.network_error]
       /\ gets w = 2
       /\ count is_get (trace w) = 2
       /\ updates w = 1.
Proof.
  repeat (split; [reflexivity|]).
  apply (transport_error_rejects (js "task-1") None Scenarios.env_network_error 1
           Scenarios.network_error); reflexivity.
Defined.

(** C10. If the observer throws on the snapshot of a poll, the session
    rejects the promise with the thrown value and returns, the GET of that
    poll being the last GET issued; the promise is left as a transport error
    with the same value on that poll leaves it. *)
Theorem observer_exception_rejects taskId pollInterval env n response v :
  polled env n = true ->
  status_reply env n = Normal response ->
  observer env n (body response) = Throw v ->
  exists w pre,
    returns env (session taskId pollInterval) init_world tt w
    /\ outcome w = Some (Rejected v)
    /\ trace w = pre ++ [EvOnUpdate n (body response);
                         EvOnUpdateDone n (Throw v); EvReject v]
    /\ gets w = S n
    /\ count is_get (trace w) = S n
    /\ forall env',
         polled env' n = true -> status_reply env' n = Throw v ->
         exists w',
           returns env' (session taskId pollInterval) init_world tt w'
           /\ outcome w' = outcome w.
Proof.
  intros Hp Hr Ho.
  assert (Hc : continues env n = false).
  { unfold continues. rewrite Hr, Ho. reflexivity. }
  destruct (session_ends env taskId pollInterval n Hp Hc)
    as (w & Hret & Hg & _ & Hout & Htr).
  assert (Hrej : outcome w = Some (Rejected v)).
  { rewrite Hout. unfold poll_outcome. rewrite Hr, Ho. reflexivity. }
  exists w. eexists. split; [exact Hret|]. repeat split.
  - exact Hrej.
  - rewrite Htr. unfold poll_events. rewrite Hr, Ho.
    change (?a :: ?b :: ?c :: ?d :: [?e]) with ([a; b] ++ [c; d; e]).
    rewrite app_assoc. reflexivity.
  - exact Hg.
  - rewrite Htr. apply gets_at_end.
  - intros env' Hp' Hr'.
    assert (Hc' : continues env' n = false).
    { unfold continues. rewrite Hr'. reflexivity. }
    destruct (session_ends env' taskId pollInterval n Hp' Hc')
      as (w' & Hret' & _ & _ & Hout' & _).
    exists w'. split; [exact Hret'|].
    rewrite Hout', Hrej. unfold poll_outcome. rewrite Hr'. reflexivity.
Qed.

Lemma observer_exception_rejects_witness :
  polled Scenarios.env_observer_fails 1 = true
  /\ status_reply Scenarios.env_observer_fails 1
     = Normal {| body := Scenarios.snapshot "processing" None;
                 http_status := 200 |}
  /\ observer Scenarios.env_observer_fails 1
       (Scenarios.snapshot "processing" None) = Throw Scenarios.boom
  /\ exists w pre,
       returns Scenarios.env_observer_fails (session (js "task-1") None)
         init_world tt w
       /\ outcome w = Some (Rejected Scenarios.boom)
       /\ trace w = pre ++ [EvOnUpdate 1 (Scenarios.snapshot "processing" None);
                            EvOnUpdateDone 1 (Throw Scenarios.boom);
                            EvReject Scenarios.boom]
       /\ gets w = 2
       /\ count is_get (trace w) = 2
       /\ forall env',
            polled env' 1 = true -> status_reply env' 1 = Throw Scenarios.boom ->
            exists w',
              returns env' (session (js "task-1") None) init_world tt w'
              /\ outcome w' = outcome w.
Proof.
  repeat (split; [reflexivity|]).
  apply (observer_exception_rejects (js "task-1") None
           Scenarios.env_observer_fails 1
           {| body := Scenarios.snapshot "processing" None; http_status := 200 |}
           Scenarios.boom); reflexivity.
Defined.

(** C3, as amended. For every poll in which the fetched snapshot has status
    [failure] and on which the observer returns normally without modifying
    the snapshot, the session rejects the promise with an [Error] and
    returns, the GET of that poll being the last GET issued; the message of
    the error is the snapshot's [error_message] when that field is present
    and not the empty string, and ["Task failed"] when it is absent or the
    empty string. In particular, for the replies [pending, failure] with
    [error_message: "model timeout"] and an observer that returns normally
    without modifying the snapshots, the message is ["model timeout"]. *)
Theorem failure_rejects taskId pollInterval env :
  (forall n response,
     polled env n = true ->
     status_reply env n = Normal response ->
     status (body response) = js "failure" ->
     observer env n (body response) = Normal (body response) ->
     exists w message pre,
       returns env (session taskId pollInterval) init_world tt w
       /\ outcome w = Some (Rejected (new_Error message))
       /\ (forall m, error_message (body response) = Some m -> m <> [] ->
                     message = m)
       /\ (error_message (body response) = None
           \/ error_message (body response) = Some [] ->
           message = js "Task failed")
       /\ trace w = pre ++ [EvReject (new_Error message)]
       /\ gets w = S n
       /\ count is_get (trace w) = S n)
  /\ (forall first second,
        status_reply env 0 = Normal first ->
        status (body first) = js "pending" ->
        observer env 0 (body first) = Normal (body first) ->
        status_reply env 1 = Normal second ->
        status (body second) = js "failure" ->
        error_message (body second) = Some (js "model timeout") ->
        observer env 1 (body second) = Normal (body second) ->
        exists w,
          returns env (session taskId pollInterval) init_world tt w
          /\ outcome w = Some (Rejected (new_Error (js "model timeout")))
          /\ gets w = 2).
Proof.
  assert (General : forall n response,
     polled env n = true ->
     status_reply env n = Normal response ->
     status (body response) = js "failure" ->
     observer env n (body response) = Normal (body response) ->
     exists w,
       returns env (session taskId pollInterval) init_world tt w
       /\ outcome w =
          Some (Rejected (new_Error (or_else (error_message (body response))
                                       (js "Task failed"))))
       /\ trace w =
          (session_events env taskId (interval_of pollInterval) n
           ++ [EvGet n (status_url taskId); EvGetSettled n (Normal response);
               EvOnUpdate n (body response); EvOnUpdateDone n (Normal tt)])
          ++ [EvReject (new_Error (or_else (error_message (body response))
                                     (js "Task failed")))]
       /\ gets w = S n
       /\ count is_get (trace w) = S n).
  { intros n response Hp Hr Hs Ho.
    assert (Hc : continues env n = false).
    { unfold continues. rewrite Hr, Ho, Hs. reflexivity. }
    destruct (session_ends env taskId pollInterval n Hp Hc)
      as (w & Hret & Hg & _ & Hout & Htr).
    exists w. split; [exact Hret|]. repeat split.
    - rewrite Hout. unfold poll_outcome. rewrite Hr, Ho, Hs. reflexivity.
    - rewrite Htr. unfold poll_events, verdict. rewrite Hr, Ho, Hs.
      cbn -[js or_else]. rewrite <- app_assoc. reflexivity.
    - exact Hg.
    - rewrite Htr. apply gets_at_end. }
  split.
  - intros n response Hp Hr Hs Ho.
    destruct (General n response Hp Hr Hs Ho) as (w & Hret & Hout & Htr & Hg & Hn).
    exists w, (or_else (error_message (body response)) (js "Task failed")).
    eexists. split; [exact Hret|]. split; [exact Hout|]. repeat split.
    + intros m Hm Hne. rewrite Hm. destruct m; [contradiction|reflexivity].
    + intros [-> | ->]; reflexivity.
    + exact Htr.
    + exact Hg.
    + exact Hn.
  - intros first second Hr0 Hs0 Ho0 Hr1 Hs1 Hm Ho1.
    assert (Hp : polled env 1 = true).
    { unfold polled. cbn [seq forallb]. unfold continues.
      rewrite Hr0, Ho0, Hs0. reflexivity. }
    destruct (General 1 second Hp Hr1 Hs1 Ho1) as (w & Hret & Hout & _ & Hg & _).
    exists w. split; [exact Hret|]. split; [|exact Hg].
    rewrite Hout, Hm. reflexivity.
Qed.

Lemma failure_rejects_witness :
  status_reply Scenarios.env_model_timeout 0
  = Normal {| body := Scenarios.snapshot "pending" None; http_status := 200 |}
  /\ status_reply Scenarios.env_model_timeout 1
     = Normal {| body := Scenarios.snapshot "failure" (Some "model timeout"%string);
                 http_status := 200 |}
  /\ observer Scenarios.env_model_timeout 0 (Scenarios.snapshot "pending" None)
     = Normal (Scenarios.snapshot "pending" None)
  /\ observer Scenarios.env_model_timeout 1
       (Scenarios.snapshot "failure" (Some "model timeout"%string))
     = Normal (Scenarios.snapshot "failure" (Some "model timeout"%string))
  /\ exists w,
       returns Scenarios.env_model_timeout (session (js "task-1") None)
         init_world tt w
       /\ outcome w = Some (Rejected (new_Error (js "model timeout")))
       /\ gets w = 2.
Proof.
  repeat (split; [reflexivity|]).
  apply (proj2 (failure_rejects (js "task-1") None Scenarios.env_model_timeout)
           {| body := Scenarios.snapshot "pending" None; http_status := 200 |}
           {| body := Scenarios.snapshot "failure" (Some "model timeout"%string);
              http_status := 200 |});
    reflexivity.
Defined.

(** C3, as stated, fails, in three ways. The snapshot has status [failure]
    and an [error_message] that is present and is the empty string: the
    message of the rejection is ["Task failed"], not that of the field. The
    snapshot has status [failure] and [error_message: "model timeout"], and
    the observer throws on it: the promise is rejected with the thrown value,
    not with an [Error] of that message. And the snapshot is fetched with
    status [failure] and [error_message: "model timeout"], and the observer
    assigns ["seen"] to its [error_message] and returns: the message of the
    rejection is ["seen"]. *)
Lemma failure_message_not_always_the_field :
  (status_reply Scenarios.env_empty_message 0
   = Scenarios.ok (Scenarios.snapshot "failure" (Some ""%string))
   /\ error_message (Scenarios.snapshot "failure" (Some ""%string)) = Some (js "")
   /\ (exists w,
         returns Scenarios.env_empty_message (session (js "task-1") None)
           init_world tt w
         /\ outcome w = Some (Rejected (new_Error (js "Task failed"))))
   /\ ~ (exists w,
           returns Scenarios.env_empty_message (session (js "task-1") None)
             init_world tt w
           /\ outcome w = Some (Rejected (new_Error (js "")))))
  /\ (status_reply Scenarios.env_failure_throwing 0
      = Scenarios.ok (Scenarios.snapshot "failure" (Some "model timeout"%string))
      /\ (exists w,
            returns Scenarios.env_failure_throwing (session (js "task-1") None)
              init_world tt w
            /\ outcome w = Some (Rejected Scenarios.boom))
      /\ ~ (exists w,
              returns Scenarios.env_failure_throwing (session (js "task-1") None)
                init_world tt w
              /\ outcome w = Some (Rejected (new_Error (js "model timeout")))))
  /\ (status_reply Scenarios.env_failure_overwritten 0
      = Scenarios.ok (Scenarios.snapshot "failure" (Some "model timeout"%string))
      /\ observer Scenarios.env_failure_overwritten 0
           (Scenarios.snapshot "failure" (Some "model timeout"%string))
         = Normal (Scenarios.snapshot "failure" (Some "seen"%string))
      /\ (exists w,
            returns Scenarios.env_failure_overwritten
              (session (js "task-1") None) init_world tt w
            /\ outcome w = Some (Rejected (new_Error (js "seen"))))
      /\ ~ (exists w,
              returns Scenarios.env_failure_overwritten
                (session (js "task-1") None) init_world tt w
              /\ outcome w = Some (Rejected (new_Error (js "model timeout"))))).
Proof.
  assert (H3 : returns Scenarios.env_failure_overwritten
                 (session (js "task-1") None) init_world tt
                 (fst (run Scenarios.env_failure_overwritten 4
                         (session (js "task-1") None) init_world))).
  { exists 4, 0. vm_compute. reflexivity. }
  assert (H1 : returns Scenarios.env_empty_message (session (js "task-1") None)
                 init_world tt
                 (fst (run Scenarios.env_empty_message 4
                         (session (js "task-1") None) init_world))).
  { exists 4, 0. vm_compute. reflexivity. }
  assert (H2 : returns Scenarios.env_failure_throwing (session (js "task-1") None)
                 init_world tt
                 (fst (run Scenarios.env_failure_throwing 4
                         (session (js "task-1") None) init_world))).
  { exists 4, 0. vm_compute. reflexivity. }
  repeat split.
  - eexists. split; [exact H1|]. vm_compute. reflexivity.
  - intros (w & Hw & Ho).
    rewrite (session_returns_once _ _ _ _ _ H1 Hw) in Ho.
    vm_compute in Ho. discriminate Ho.
  - eexists. split; [exact H2|]. vm_compute. reflexivity.
  - intros (w & Hw & Ho).
    rewrite (session_returns_once _ _ _ _ _ H2 Hw) in Ho.
    vm_compute in Ho. discriminate Ho.
  - eexists. split; [exact H3|]. vm_compute. reflexivity.
  - intros (w & Hw & Ho).
    rewrite (session_returns_once _ _ _ _ _ H3 Hw) in Ho.
    vm_compute in Ho. discriminate Ho.
Qed.

(** C4, as amended. For every poll in which the fetched snapshot's status
    is neither [success] nor [failure] (so [pending], [processing], and any
    other string such as ["queued"]) and on which the observer returns
    normally without modifying the snapshot, the session sets a timer for the interval (2000 by default, or
    the caller's interval) and goes on: once the observer has returned, its
    next effects are the [setTimeout] and the GET of the next poll, and at
    that point neither [resolve] nor [reject] has been called and the
    promise is pending. *)
Theorem pending_reschedules taskId pollInterval env n response :
  polled env n = true ->
  status_reply env n = Normal response ->
  JsString.eqb (status (body response)) (js "success") = false ->
  JsString.eqb (status (body response)) (js "failure") = false ->
  observer env n (body response) = Normal (body response) ->
  exists w pre,
    reaches env (session taskId pollInterval) init_world w
    /\ trace w = pre ++ [EvOnUpdateDone n (Normal tt);
                         EvSetTimeout (match pollInterval with
                                       | Some ms => ms
                                       | None => 2000%Z
                                       end);
                         EvGet (S n) (status_url taskId)]
    /\ outcome w = None
    /\ count is_settle_call (trace w) = 0.
Proof.
  intros Hp Hr Hs Hf Ho.
  assert (Hc : continues env n = true).
  { unfold continues. rewrite Hr, Ho, Hs, Hf. reflexivity. }
  assert (Hq : all_continue env (S n)).
  { apply polled_iff in Hp. intros i Hi.
    destruct (Nat.eq_dec i n) as [->|]; [exact Hc|]. apply Hp. lia. }
  pose proof (session_reaches_poll env taskId pollInterval (S n) 1 Hq) as Hrun.
  set (ms := interval_of pollInterval) in *.
  assert (Hone :
    run env 1 (session taskId pollInterval) (poll_start env taskId ms (S n)) =
    (log [EvGet (S n) (status_url taskId)]
       {| gets := S (S n); posts := []; updates := S n; outcome := None;
          trace := session_events env taskId ms (S n) |}, None)).
  { change (session taskId pollInterval)
      with (ITree.iter (fun _ : unit => poll taskId ms) tt).
    rewrite run_iter. unfold poll, getVoiceCloneStatus. run_steps.
    reflexivity. }
  rewrite Hone in Hrun.
  eexists. eexists. split; [eexists; rewrite Hrun; reflexivity|].
  cbn [fst trace log outcome]. repeat split.
  - rewrite session_events_S. unfold poll_events, verdict.
    rewrite Hr, Ho, Hs, Hf.
    change (?a :: ?b :: ?c :: ?d :: [?e]) with ([a; b; c] ++ [d; e]).
    rewrite !app_assoc, <- app_assoc. reflexivity.
  - subst ms. rewrite count_app.
    destruct (quiet_session env taskId pollInterval (S n) Hq) as (_ & _ & ->).
    reflexivity.
Qed.

Lemma pending_reschedules_witness :
  polled Scenarios.env_queued 2 = true
  /\ status_reply Scenarios.env_queued 2
     = Normal {| body := Scenarios.snapshot "queued" None; http_status := 200 |}
  /\ JsString.eqb (status (Scenarios.snapshot "queued" None)) (js "success") = false
  /\ JsString.eqb (status (Scenarios.snapshot "queued" None)) (js "failure") = false
  /\ observer Scenarios.env_queued 2 (Scenarios.snapshot "queued" None)
     = Normal (Scenarios.snapshot "queued" None)
  /\ exists w pre,
       reaches Scenarios.env_queued (session (js "task-1") None) init_world w
       /\ trace w = pre ++ [EvOnUpdateDone 2 (Normal tt); EvSetTimeout 2000;
                            EvGet 3 (status_url (js "task-1"))]
       /\ outcome w = None
       /\ count is_settle_call (trace w) = 0.
Proof.
  repeat (split; [reflexivity|]).
  apply (pending_reschedules (js "task-1") None Scenarios.env_queued 2
           {| body := Scenarios.snapshot "queued" None; http_status := 200 |});
    reflexivity.
Defined.

(** C4, as stated, fails, in two ways. The snapshot of the first poll has
    the status ["queued"] and the observer throws on it: the session sets no
    timer, rejects the promise and returns after that one GET. And the
    snapshot of the first poll is fetched with the status ["queued"] and the
    observer assigns ["success"] to its status and returns: the session sets
    no timer, resolves the promise and returns after that one GET. *)
Lemma queued_poll_not_always_rescheduled :
  (status_reply Scenarios.env_queued_throwing 0
   = Scenarios.ok (Scenarios.snapshot "queued" None)
   /\ exists w,
        returns Scenarios.env_queued_throwing (session (js "task-1") None)
          init_world tt w
        /\ outcome w = Some (Rejected Scenarios.boom)
        /\ count is_timeout (trace w) = 0
        /\ count is_get (trace w) = 1)
  /\ (status_reply Scenarios.env_queued_overwritten 0
      = Scenarios.ok (Scenarios.snapshot "queued" None)
      /\ observer Scenarios.env_queued_overwritten 0
           (Scenarios.snapshot "queued" None)
         = Normal (Scenarios.snapshot "success" None)
      /\ exists w,
           returns Scenarios.env_queued_overwritten (session (js "task-1") None)
             init_world tt w
           /\ outcome w = Some (Resolved (Scenarios.snapshot "success" None))
           /\ count is_timeout (trace w) = 0
           /\ count is_get (trace w) = 1).
Proof.
  split.
  - split; [reflexivity|].
    exists (fst (run Scenarios.env_queued_throwing 4
                   (session (js "task-1") None) init_world)).
    split; [exists 4, 0; vm_compute; reflexivity|].
    split; [|split]; vm_compute; reflexivity.
  - split; [reflexivity|]. split; [reflexivity|].
    exists (fst (run Scenarios.env_queued_overwritten 4
                   (session (js "task-1") None) init_world)).
    split; [exists 4, 0; vm_compute; reflexivity|].
    split; [|split]; vm_compute; reflexivity.
Qed.

(** C6, as amended. For the replies [pending, processing, processing,
    success] and an observer that returns normally on each of the four
    snapshots without modifying it, the session issues exactly four GETs, invokes the observer
    exactly four times, once per poll with the snapshot fetched in that poll
    and in the order of the polls, and resolves the promise with the last
    snapshot, which is the snapshot of the last invocation of the
    observer. *)
Theorem four_polls_resolve taskId pollInterval env r0 r1 r2 r3 :
  status_reply env 0 = Normal r0 -> status (body r0) = js "pending" ->
  status_reply env 1 = Normal r1 -> status (body r1) = js "processing" ->
  status_reply env 2 = Normal r2 -> status (body r2) = js "processing" ->
  status_reply env 3 = Normal r3 -> status (body r3) = js "success" ->
  observer env 0 (body r0) = Normal (body r0) ->
  observer env 1 (body r1) = Normal (body r1) ->
  observer env 2 (body r2) = Normal (body r2) ->
  observer env 3 (body r3) = Normal (body r3) ->
  exists w,
    returns env (session taskId pollInterval) init_world tt w
    /\ gets w = 4
    /\ count is_get (trace w) = 4
    /\ updates w = 4
    /\ observed (trace w) = [body r0; body r1; body r2; body r3]
    /\ outcome w = Some (Resolved (body r3))
    /\ last (observed (trace w)) (body r0) = body r3
    /\ trace w =
       [EvGet 0 (status_url taskId); EvGetSettled 0 (Normal r0);
        EvOnUpdate 0 (body r0); EvOnUpdateDone 0 (Normal tt);
        EvSetTimeout (interval_of pollInterval);
        EvGet 1 (status_url taskId); EvGetSettled 1 (Normal r1);
        EvOnUpdate 1 (body r1); EvOnUpdateDone 1 (Normal tt);
        EvSetTimeout (interval_of pollInterval);
        EvGet 2 (status_url taskId); EvGetSettled 2 (Normal r2);
        EvOnUpdate 2 (body r2); EvOnUpdateDone 2 (Normal tt);
        EvSetTimeout (interval_of pollInterval);
        EvGet 3 (status_url taskId); EvGetSettled 3 (Normal r3);
        EvOnUpdate 3 (body r3); EvOnUpdateDone 3 (Normal tt);
        EvResolve (body r3)].
Proof.
  intros Hr0 Hs0 Hr1 Hs1 Hr2 Hs2 Hr3 Hs3 Ho0 Ho1 Ho2 Ho3.
  assert (Hp : polled env 3 = true).
  { unfold polled. cbn [seq forallb]. unfold continues.
    rewrite Hr0, Ho0, Hs0, Hr1, Ho1, Hs1, Hr2, Ho2, Hs2. reflexivity. }
  assert (Hc : continues env 3 = false).
  { unfold continues. rewrite Hr3, Ho3, Hs3. reflexivity. }
  destruct (session_ends env taskId pollInterval 3 Hp Hc)
    as (w & Hret & Hg & Hu & Hout & Htr).
  assert (Htrace : trace w =
       [EvGet 0 (status_url taskId); EvGetSettled 0 (Normal r0);
        EvOnUpdate 0 (body r0); EvOnUpdateDone 0 (Normal tt);
        EvSetTimeout (interval_of pollInterval);
        EvGet 1 (status_url taskId); EvGetSettled 1 (Normal r1);
        EvOnUpdate 1 (body r1); EvOnUpdateDone 1 (Normal tt);
        EvSetTimeout (interval_of pollInterval);
        EvGet 2 (status_url taskId); EvGetSettled 2 (Normal r2);
        EvOnUpdate 2 (body r2); EvOnUpdateDone 2 (Normal tt);
        EvSetTimeout (interval_of pollInterval);
        EvGet 3 (status_url taskId); EvGetSettled 3 (Normal r3);
        EvOnUpdate 3 (body r3); EvOnUpdateDone 3 (Normal tt);
        EvResolve (body r3)]).
  { rewrite Htr. unfold session_events. cbn [seq flat_map].
    unfold poll_events, verdict.
    rewrite Hr0, Ho0, Hs0, Hr1, Ho1, Hs1, Hr2, Ho2, Hs2, Hr3, Ho3, Hs3.
    reflexivity. }
  exists w. split; [exact Hret|]. repeat split.
  - exact Hg.
  - rewrite Htrace. reflexivity.
  - rewrite Hu. unfold poll_updates. rewrite Hr3. reflexivity.
  - rewrite Htrace. reflexivity.
  - rewrite Hout. unfold poll_outcome. rewrite Hr3, Ho3, Hs3. reflexivity.
  - rewrite Htrace. reflexivity.
  - exact Htrace.
Qed.

Lemma four_polls_resolve_witness :
  status_reply Scenarios.env_four 0 = Scenarios.ok (Scenarios.snapshot "pending" None)
  /\ status_reply Scenarios.env_four 1
     = Scenarios.ok (Scenarios.snapshot "processing" None)
  /\ status_reply Scenarios.env_four 2
     = Scenarios.ok (Scenarios.snapshot "processing" None)
  /\ status_reply Scenarios.env_four 3
     = Scenarios.ok (Scenarios.snapshot "success" None)
  /\ exists w,
       returns Scenarios.env_four (session (js "task-1") None) init_world tt w
       /\ gets w = 4
       /\ count is_get (trace w) = 4
       /\ updates w = 4
       /\ observed (trace w)
          = [Scenarios.snapshot "pending" None; Scenarios.snapshot "processing" None;
             Scenarios.snapshot "processing" None; Scenarios.snapshot "success" None]
       /\ outcome w = Some (Resolved (Scenarios.snapshot "success" None)).
Proof.
  repeat (split; [reflexivity|]).
  destruct (four_polls_resolve (js "task-1") None Scenarios.env_four
              {| body := Scenarios.snapshot "pending" None; http_status := 200 |}
              {| body := Scenarios.snapshot "processing" None; http_status := 200 |}
              {| body := Scenarios.snapshot "processing" None; http_status := 200 |}
              {| body := Scenarios.snapshot "success" None; http_status := 200 |}
              eq_refl eq_refl eq_refl eq_refl eq_refl eq_refl
              eq_refl eq_refl eq_refl eq_refl eq_refl eq_refl)
    as (w & Hret & Hg & Hn & Hu & Hobs & Hout & _ & _).
  exists w. repeat split; assumption.
Defined.

(** C6, as stated, fails, in two ways, with the fetched statuses [pending,
    processing, processing, success]. The observer throws on the last
    snapshot: the session issues four GETs and invokes the observer four
    times, with those four snapshots, and the promise is rejected with the
    thrown value: it is never resolved. And the observer returns on each of
    the four snapshots, having assigned ["processing"] to the status of the
    last: the fourth poll sets the timer and a fifth GET is issued (the
    transport error it meets here ends the session), and the promise is never
    resolved. *)
Lemma four_polls_not_always_resolved :
  (map (status_reply Scenarios.env_four_last_throws) [0; 1; 2; 3]
   = Scenarios.four_replies
   /\ (exists w,
          returns Scenarios.env_four_last_throws (session (js "task-1") None)
            init_world tt w
          /\ count is_get (trace w) = 4
          /\ observed (trace w)
             = [Scenarios.snapshot "pending" None;
                Scenarios.snapshot "processing" None;
                Scenarios.snapshot "processing" None;
                Scenarios.snapshot "success" None]
          /\ outcome w = Some (Rejected Scenarios.boom)
          /\ count is_resolve (trace w) = 0)
   /\ ~ (exists w,
           returns Scenarios.env_four_last_throws (session (js "task-1") None)
             init_world tt w
           /\ outcome w = Some (Resolved (Scenarios.snapshot "success" None))))
  /\ (map (status_reply Scenarios.env_four_last_overwritten) [0; 1; 2; 3]
      = Scenarios.four_replies
      /\ observer Scenarios.env_four_last_overwritten 3
           (Scenarios.snapshot "success" None)
         = Normal (Scenarios.snapshot "processing" None)
      /\ (exists w,
            returns Scenarios.env_four_last_overwritten
              (session (js "task-1") None) init_world tt w
            /\ count is_get (trace w) = 5
            /\ observed (trace w)
               = [Scenarios.snapshot "pending" None;
                  Scenarios.snapshot "processing" None;
                  Scenarios.snapshot "processing" None;
                  Scenarios.snapshot "success" None]
            /\ count is_timeout (trace w) = 4
            /\ count is_resolve (trace w) = 0)
      /\ ~ (exists w,
              returns Scenarios.env_four_last_overwritten
                (session (js "task-1") None) init_world tt w
              /\ exists s, outcome w = Some (Resolved s))).
Proof.
  assert (Hr : returns Scenarios.env_four_last_throws
                 (session (js "task-1") None) init_world tt
                 (fst (run Scenarios.env_four_last_throws 19
                         (session (js "task-1") None) init_world))).
  { exists 19, 0. vm_compute. reflexivity. }
  assert (Hr' : returns Scenarios.env_four_last_overwritten
                  (session (js "task-1") None) init_world tt
                  (fst (run Scenarios.env_four_last_overwritten 23
                          (session (js "task-1") None) init_world))).
  { exists 23, 0. vm_compute. reflexivity. }
  split.
  - split; [reflexivity|]. split.
    + eexists. split; [exact Hr|].
      split; [|split; [|split]]; vm_compute; reflexivity.
    + intros (w & Hw & Ho).
      rewrite (session_returns_once _ _ _ _ _ Hr Hw) in Ho.
      vm_compute in Ho. discriminate Ho.
  - split; [reflexivity|]. split; [reflexivity|]. split.
    + eexists. split; [exact Hr'|].
      split; [|split; [|split]]; vm_compute; reflexivity.
    + intros (w & Hw & s & Ho).
      rewrite (session_returns_once _ _ _ _ _ Hr' Hw) in Ho.
      vm_compute in Ho. discriminate Ho.
Qed.

(* ===================================================================== *)
(** ** The polling session: order of the effects *)
(* ===================================================================== *)

(** C7. At every point of a session: in the trace so far never more than
    one GET is in flight; the GET of a poll after the first leaves only
    after the GET of the poll before it has settled and the observer has
    returned from its invocation on that poll, no GET being in flight; and
    the [i]-th invocation of the observer comes after [i] earlier
    invocations, carries the snapshot fetched by the [i]-th GET, and starts
    after that GET has settled. *)
Theorem fetches_serialized taskId pollInterval env w :
  reaches env (session taskId pollInterval) init_world w ->
  (forall pre post, trace w = pre ++ post -> (0 <= in_flight pre <= 1)%Z)
  /\ (forall pre post n url,
        trace w = pre ++ EvGet (S n) url :: post ->
        (exists reply, In (EvGetSettled n reply) pre)
        /\ In (EvOnUpdateDone n (Normal tt)) pre
        /\ in_flight pre = 0%Z)
  /\ (forall pre post i s,
        trace w = pre ++ EvOnUpdate i s :: post ->
        List.length (observed pre) = i
        /\ exists response,
             status_reply env i = Normal response
             /\ body response = s
             /\ In (EvGetSettled i (Normal response)) pre).
Proof.
  intros Hreach.
  destruct (session_reaches env taskId pollInterval w Hreach)
    as (k & m & Hk & _ & Htr).
  set (ms := interval_of pollInterval) in *.
  assert (Hupto : forall j, j <= k -> all_continue env j).
  { intros j Hj i Hi. apply Hk. lia. }
  repeat split.
  - rewrite Htr in H.
    apply locate_prefix in H as (j & l1 & l2 & Hj & Hp & ->).
    rewrite in_flight_app, in_flight_session.
    apply in_flight_poll_prefix in Hp. lia.
  - rewrite Htr in H.
    apply locate_prefix in H as (j & l1 & l2 & Hj & Hp & ->).
    rewrite in_flight_app, in_flight_session.
    apply in_flight_poll_prefix in Hp. lia.
  - rewrite Htr in H.
    apply locate in H as (j & l1 & l2 & Hj & Hp & ->).
    apply get_in_poll in Hp as [-> <-].
    destruct (continues_events env taskId ms n (Hk n ltac:(lia)))
      as (response & _ & Hin & _ & _ & _).
    exists (Normal response).
    rewrite app_nil_r, session_events_S. apply in_or_app. right. exact Hin.
  - rewrite Htr in H.
    apply locate in H as (j & l1 & l2 & Hj & Hp & ->).
    apply get_in_poll in Hp as [-> <-].
    destruct (continues_events env taskId ms n (Hk n ltac:(lia)))
      as (response & _ & _ & Hin & _ & _).
    rewrite app_nil_r, session_events_S. apply in_or_app. right. exact Hin.
  - rewrite Htr in H.
    apply locate in H as (j & l1 & l2 & Hj & Hp & ->).
    apply get_in_poll in Hp as [-> <-].
    rewrite app_nil_r. apply in_flight_session.
  - rewrite Htr in H.
    apply locate in H as (j & l1 & l2 & Hj & Hp & ->).
    apply update_in_poll in Hp as (-> & response & _ & _ & ->).
    rewrite observed_app, length_app.
    rewrite (observed_session env taskId ms j (Hupto j Hj)). cbn. lia.
  - rewrite Htr in H.
    apply locate in H as (j & l1 & l2 & Hj & Hp & ->).
    apply update_in_poll in Hp as (-> & response & Hr & Hs & ->).
    exists response. repeat split; [exact Hr | exact Hs |].
    apply in_or_app. right. right. left. reflexivity.
Qed.

Lemma fetches_serialized_witness :
  reaches Scenarios.env_four (session (js "task-1") None) init_world
    Scenarios.mid_session
  /\ (forall pre post,
        trace Scenarios.mid_session = pre ++ post ->
        (0 <= in_flight pre <= 1)%Z)
  /\ (forall pre post n url,
        trace Scenarios.mid_session = pre ++ EvGet (S n) url :: post ->
        (exists reply, In (EvGetSettled n reply) pre)
        /\ In (EvOnUpdateDone n (Normal tt)) pre
        /\ in_flight pre = 0%Z)
  /\ (forall pre post i s,
        trace Scenarios.mid_session = pre ++ EvOnUpdate i s :: post ->
        List.length (observed pre) = i
        /\ exists response,
             status_reply Scenarios.env_four i = Normal response
             /\ body response = s
             /\ In (EvGetSettled i (Normal response)) pre).
Proof.
  assert (H : reaches Scenarios.env_four (session (js "task-1") None) init_world
                Scenarios.mid_session).
  { exists 7. reflexivity. }
  split; [exact H|].
  exact (fetches_serialized (js "task-1") None Scenarios.env_four
           Scenarios.mid_session H).
Defined.

(* ===================================================================== *)
(** ** Link validation *)
(* ===================================================================== *)

(** C8. For every input string, read in the order of the cases:
    made of white space only (or empty), the result is invalid with
    ["Please enter a URL"]; otherwise, not parsed by [new URL], invalid with
    ["Please enter a valid URL"]; otherwise, hostname containing
    ["youtube.com"] or ["youtu.be"], valid with platform [youtube];
    otherwise, hostname containing ["vimeo.com"], valid with platform
    [vimeo]; otherwise, hostname containing ["drive.google.com"], valid with
    platform [google-drive]; otherwise invalid with
    ["Only YouTube, Vimeo, and Google Drive links are supported"]. *)
Theorem validateVideoLink_cases URL_new url :
  (forallb JsString.is_white_space url = true ->
   Validation.validateVideoLink URL_new url
   = {| isValid := false; platform := None;
        error := Some (js "Please enter a URL") |})
  /\ (forallb JsString.is_white_space url = false ->
      URL_new url = None ->
      Validation.validateVideoLink URL_new url
      = {| isValid := false; platform := None;
           error := Some (js "Please enter a valid URL") |})
  /\ (forall urlObj,
        forallb JsString.is_white_space url = false ->
        URL_new url = Some urlObj ->
        (JsString.includes (Validation.hostname urlObj) (js "youtube.com") = true
         \/ JsString.includes (Validation.hostname urlObj) (js "youtu.be") = true ->
         Validation.validateVideoLink URL_new url
         = {| isValid := true; platform := Some youtube; error := None |})
        /\ (JsString.includes (Validation.hostname urlObj) (js "youtube.com") = false ->
            JsString.includes (Validation.hostname urlObj) (js "youtu.be") = false ->
            JsString.includes (Validation.hostname urlObj) (js "vimeo.com") = true ->
            Validation.validateVideoLink URL_new url
            = {| isValid := true; platform := Some vimeo; error := None |})
        /\ (JsString.includes (Validation.hostname urlObj) (js "youtube.com") = false ->
            JsString.includes (Validation.hostname urlObj) (js "youtu.be") = false ->
            JsString.includes (Validation.hostname urlObj) (js "vimeo.com") = false ->
            JsString.includes (Validation.hostname urlObj) (js "drive.google.com") = true ->
            Validation.validateVideoLink URL_new url
            = {| isValid := true; platform := Some google_drive; error := None |})
        /\ (JsString.includes (Validation.hostname urlObj) (js "youtube.com") = false ->
            JsString.includes (Validation.hostname urlObj) (js "youtu.be") = false ->
            JsString.includes (Validation.hostname urlObj) (js "vimeo.com") = false ->
            JsString.includes (Validation.hostname urlObj) (js "drive.google.com") = false ->
            Validation.validateVideoLink URL_new url
            = {| isValid := false; platform := None;
                 error :=
                   Some (js "Only YouTube, Vimeo, and Google Drive links are supported") |})).
Proof.
  assert (Blank : forallb JsString.is_white_space url = true ->
                  JsString.truthy (JsString.trim url) = false).
  { intros H. apply trim_nil in H. rewrite H. reflexivity. }
  assert (Filled : forallb JsString.is_white_space url = false ->
                   JsString.truthy (JsString.trim url) = true).
  { intros H. destruct (JsString.trim url) eqn:E; [|reflexivity].
    apply trim_nil in E. congruence. }
  unfold Validation.validateVideoLink. split; [|split].
  - intros H. rewrite (Blank H). reflexivity.
  - intros H Hp. rewrite (Filled H), Hp. reflexivity.
  - intros urlObj H Hp. rewrite (Filled H), Hp. cbn [negb].
    repeat split.
    + intros [-> | ->]; [reflexivity|]. rewrite orb_true_r. reflexivity.
    + intros -> -> ->. reflexivity.
    + intros -> -> -> ->. reflexivity.
    + intros -> -> -> ->. reflexivity.
Qed.

Lemma validateVideoLink_cases_witness :
  Validation.validateVideoLink Scenarios.example_parser (js "https://youtu.be/abc123")
  = {| isValid := true; platform := Some youtube; error := None |}
  /\ Validation.validateVideoLink Scenarios.example_parser (js "https://vimeo.com/12345")
     = {| isValid := true; platform := Some vimeo; error := None |}
  /\ Validation.validateVideoLink Scenarios.example_parser (js "not a url")
     = {| isValid := false; platform := None;
          error := Some (js "Please enter a valid URL") |}
  /\ Validation.validateVideoLink Scenarios.example_parser
       (js "https://example.com/video")
     = {| isValid := false; platform := None;
          error :=
            Some (js "Only YouTube, Vimeo, and Google Drive links are supported") |}
  /\ Validation.validateVideoLink Scenarios.example_parser (js "")
     = {| isValid := false; platform := None;
          error := Some (js "Please enter a URL") |}.
Proof.
  split; [|split; [|split; [|split]]].
  - apply (proj1 (proj2 (proj2 (validateVideoLink_cases Scenarios.example_parser
                                  (js "https://youtu.be/abc123")))
                    {| Validation.hostname := js "youtu.be" |} eq_refl eq_refl)).
    right. reflexivity.
  - apply (proj1 (proj2 (proj2 (proj2 (validateVideoLink_cases
                                         Scenarios.example_parser
                                         (js "https://vimeo.com/12345")))
                           {| Validation.hostname := js "vimeo.com" |}
                           eq_refl eq_refl)));
      reflexivity.
  - apply (proj1 (proj2 (validateVideoLink_cases Scenarios.example_parser
                           (js "not a url"))));
      reflexivity.
  - apply (proj2 (proj2 (proj2 (proj2 (proj2 (validateVideoLink_cases
                                                Scenarios.example_parser
                                                (js "https://example.com/video")))
                                  {| Validation.hostname := js "example.com" |}
                                  eq_refl eq_refl))));
      reflexivity.
  - apply (proj1 (validateVideoLink_cases Scenarios.example_parser (js ""))).
    reflexivity.
Defined.

(* ===================================================================== *)
(** ** Submission *)
(* ===================================================================== *)

(** C9, as amended. For every request, [submitVoiceClone] issues one POST,
    to [/voice/voice-clone], of one multipart form, and returns the body of
    the collaborator's response (or throws the transport error). The form
    holds: the request's data under ["file"] when the type is [file] and
    under ["link"] when it is [link]; the source tag under ["source"] (the
    request's, or ["local"] for a file and ["unknown"] for a link when it
    has none); the type under ["type"]; the language under
    ["target_language"] exactly when the request has one that is not the
    empty string; the settings, serialized, under ["voice_settings"] exactly
    when the request has settings; and nothing else. *)
Theorem submit_posts_one_form JSON_stringify env request :
  exists w form,
    returns env (submitVoiceClone JSON_stringify request) init_world
      (match submit_reply env (js "/voice/voice-clone") form with
       | Normal response => Normal (body response)
       | Throw error => Throw error
       end) w
    /\ trace w =
       [EvPost 0 (js "/voice/voice-clone") form
          [(js "Content-Type", js "multipart/form-data")];
        EvPostSettled 0 (submit_reply env (js "/voice/voice-clone") form)]
    /\ getAll form (js "file") =
       match type request with
       | type_file => [form_value (data request)]
       | type_link => []
       end
    /\ getAll form (js "link") =
       match type request with
       | type_file => []
       | type_link => [form_value (data request)]
       end
    /\ getAll form (js "source") =
       [FormString
          match source request, type request with
          | Some tag, _ => Source_str tag
          | None, type_file => js "local"
          | None, type_link => js "unknown"
          end]
    /\ getAll form (js "type") = [FormString (UploadType_str (type request))]
    /\ getAll form (js "target_language") =
       match target_language request with
       | Some (c :: lang) => [FormString (c :: lang)]
       | Some [] => []
       | None => []
       end
    /\ getAll form (js "voice_settings") =
       match voice_settings request with
       | Some settings => [FormString (JSON_stringify settings)]
       | None => []
       end
    /\ Forall (fun entry =>
                 In (fst entry)
                   [js "file"; js "link"; js "source"; js "type";
                    js "target_language"; js "voice_settings"]) form.
Proof.
  exists (snd (handle env (AwaitPost 0)
                 (snd (handle env
                         (ApiPost (js "/voice/voice-clone")
                            (buildFormData JSON_stringify request)
                            [(js "Content-Type", js "multipart/form-data")])
                         init_world)))).
  exists (buildFormData JSON_stringify request).
  split.
  { exists 2, 0. unfold submitVoiceClone. run_steps.
    destruct (submit_reply env (js "/voice/voice-clone")
                (buildFormData JSON_stringify request)); run_steps; reflexivity. }
  split; [reflexivity|].
  assert (Names :
    forallb (fun entry =>
               existsb (JsString.eqb (fst entry))
                 [js "file"; js "link"; js "source"; js "type";
                  js "target_language"; js "voice_settings"])
      (buildFormData JSON_stringify request) = true).
  { destruct request as [ty d src lang settings].
    destruct ty, src as [tag|], lang as [[|c lang]|], settings as [settings|];
      vm_compute; reflexivity. }
  repeat match goal with |- _ /\ _ => split end.
  7:{ apply Forall_forall. intros entry Hin.
      rewrite forallb_forall in Names. specialize (Names entry Hin).
      apply existsb_exists in Names as (name & Hname & Heq).
      apply eqb_eq in Heq. rewrite Heq. exact Hname. }
  all: destruct request as [ty d src lang settings];
    destruct ty, src as [tag|], lang as [[|c lang]|], settings as [settings|];
    vm_compute; reflexivity.
Qed.

(** C9, as stated, fails: the request has a target language, the empty
    string, and the form that is posted has no ["target_language"] entry. *)
Lemma empty_target_language_not_sent :
  target_language Scenarios.request_empty_language = Some (js "")
  /\ exists w form result,
       returns Scenarios.env_accepting
         (submitVoiceClone Scenarios.stringify_stub Scenarios.request_empty_language)
         init_world result w
       /\ trace w =
          [EvPost 0 (js "/voice/voice-clone") form
             [(js "Content-Type", js "multipart/form-data")];
           EvPostSettled 0
             (submit_reply Scenarios.env_accepting (js "/voice/voice-clone") form)]
       /\ getAll form (js "target_language") = [].
Proof.
  split; [reflexivity|].
  eexists. eexists. eexists. split; [exists 2, 0; vm_compute; reflexivity|].
  split; reflexivity.
Qed.

(* ===================================================================== *)
(** ** The polling session: what holds of every session *)
(* ===================================================================== *)

(** The last effect of a poll that does not set the timer is its call of
    [resolve] or of [reject]. *)
Lemma last_poll_ends_with_settle env taskId ms n :
  continues env n = false ->
  exists pre e,
    poll_events env taskId ms n = pre ++ [e]
    /\ is_settle_call e = true
    /\ count is_settle_call pre = 0.
Proof.
  unfold continues, poll_events, verdict.
  destruct (status_reply env n) as [response|e].
  - destruct (observer env n (body response)) as [updated|v].
    + destruct (JsString.eqb (status updated) (js "success"));
        [|destruct (JsString.eqb (status updated) (js "failure"))];
        try discriminate; intros _;
        (eexists [_; _; _; _]; eexists; repeat split).
    + intros _. eexists [_; _; _; _]. eexists. repeat split.
  - intros _. eexists [_; _]. eexists. repeat split.
Qed.

(** Every effect of a session is an effect of one of its polls. *)
Lemma event_of_poll env taskId pollInterval w e :
  reaches env (session taskId pollInterval) init_world w ->
  In e (trace w) ->
  exists j, In e (poll_events env taskId (interval_of pollInterval) j).
Proof.
  intros Hreach Hin.
  destruct (session_reaches env taskId pollInterval w Hreach)
    as (k & m & _ & _ & Htr).
  apply in_split in Hin as (pre & post & Hsplit).
  rewrite Hsplit in Htr. symmetry in Htr.
  apply locate in Htr as (j & l1 & l2 & _ & Hp & _).
  exists j. rewrite Hp. apply in_elt.
Qed.

(** X1. Whenever a session is over, whatever the collaborator and the
    observer have done, [resolve] and [reject] have been called once in all
    and the promise is settled; and the session has issued one GET more than
    it has set timers. *)
Theorem session_over_means_settled taskId pollInterval env w :
  returns env (session taskId pollInterval) init_world tt w ->
  count is_resolve (trace w) + count is_reject (trace w) = 1
  /\ outcome w <> None
  /\ gets w = count is_get (trace w)
  /\ count is_get (trace w) = S (count is_timeout (trace w)).
Proof.
  intros Hret.
  destruct (session_end_form env taskId pollInterval w Hret) as (n & Hp & Hc & ->).
  destruct (one_settle_call_in_last_poll env taskId pollInterval n Hc)
    as (Hone & _ & Hno & Hsome).
  destruct (quiet_session env taskId pollInterval n Hp) as (Hr & Hj & _).
  cbn [trace outcome gets after_poll poll_start].
  rewrite gets_at_end, !count_app, Hr, Hj, Hno,
    (timeouts_in_session env taskId pollInterval n Hp).
  repeat split; try lia; assumption.
Qed.

Lemma session_over_means_settled_witness :
  returns Scenarios.env_four (session (js "task-1") None) init_world tt
    Examples.final_four
  /\ count is_resolve (trace Examples.final_four)
     + count is_reject (trace Examples.final_four) = 1
  /\ outcome Examples.final_four <> None
  /\ gets Examples.final_four = count is_get (trace Examples.final_four)
  /\ count is_get (trace Examples.final_four)
     = S (count is_timeout (trace Examples.final_four)).
Proof.
  assert (H : returns Scenarios.env_four (session (js "task-1") None)
                init_world tt Examples.final_four).
  { exists 19, 0. vm_compute. reflexivity. }
  split; [exact H|].
  exact (session_over_means_settled (js "task-1") None Scenarios.env_four
           Examples.final_four H).
Defined.

(** X2. At every point of a session, ended or not: [resolve] and [reject]
    have been called at most once in all; the promise is pending exactly
    when neither has been called; and a call of one of them is the last
    effect of the session. *)
Theorem settle_call_is_final taskId pollInterval env w :
  reaches env (session taskId pollInterval) init_world w ->
  count is_settle_call (trace w) <= 1
  /\ (outcome w = None <-> count is_settle_call (trace w) = 0)
  /\ (forall pre e post,
        trace w = pre ++ e :: post -> is_settle_call e = true -> post = []).
Proof.
  intros Hreach.
  destruct (session_point_form env taskId pollInterval w Hreach)
    as [[Ho Hn]|(n & Hp & Hc & ->)].
  - rewrite Hn. split; [lia|]. split; [tauto|].
    intros pre e post Htr He. rewrite Htr, count_app in Hn.
    unfold count in Hn at 2. cbn in Hn. rewrite He in Hn. cbn in Hn. lia.
  - destruct (last_poll_ends_with_settle env taskId (interval_of pollInterval) n Hc)
      as (init & s & Hlast & Hs & Hinit).
    destruct (quiet_session env taskId pollInterval n Hp) as (_ & _ & Hq).
    destruct (one_settle_call_in_last_poll env taskId pollInterval n Hc)
      as (_ & Hone & _ & Hsome).
    cbn [trace outcome after_poll poll_start].
    rewrite count_app, Hq, Hone. split; [lia|]. split.
    + split; [intros H; contradiction | discriminate].
    + intros pre e post Htr He.
      rewrite Hlast, app_assoc in Htr.
      destruct post as [|x post] using rev_ind; [reflexivity|].
      clear IHpost. exfalso.
      rewrite app_comm_cons, app_assoc in Htr.
      apply app_inj_tail in Htr as [Htr _].
      apply (f_equal (count is_settle_call)) in Htr.
      rewrite !count_app, Hq, Hinit in Htr.
      unfold count in Htr at 2. cbn in Htr. rewrite He in Htr. cbn in Htr. lia.
Qed.

Lemma settle_call_is_final_witness :
  reaches Scenarios.env_four (session (js "task-1") None) init_world
    Examples.final_four
  /\ count is_settle_call (trace Examples.final_four) <= 1
  /\ (outcome Examples.final_four = None
      <-> count is_settle_call (trace Examples.final_four) = 0)
  /\ (forall pre e post,
        trace Examples.final_four = pre ++ e :: post ->
        is_settle_call e = true -> post = []).
Proof.
  assert (H : reaches Scenarios.env_four (session (js "task-1") None)
                init_world Examples.final_four).
  { exists 19. vm_compute. reflexivity. }
  split; [exact H|].
  exact (settle_call_is_final (js "task-1") None Scenarios.env_four
           Examples.final_four H).
Defined.

(** X3. If on every poll the GET succeeds, the observer returns, and the
    status of the snapshot as the observer leaves it is neither [success]
    nor [failure], the session never ends and never settles the promise, and
    it issues a GET of every rank: there is no limit on the number of
    polls. *)
Theorem polls_for_ever taskId pollInterval env :
  (forall i, continues env i = true) ->
  (forall fuel,
     snd (run env fuel (session taskId pollInterval) init_world) = None
     /\ outcome (fst (run env fuel (session taskId pollInterval) init_world))
        = None)
  /\ forall n,
       exists w,
         reaches env (session taskId pollInterval) init_world w
         /\ In (EvGet n (status_url taskId)) (trace w).
Proof.
  intros Hall. split.
  - intros fuel.
    pose proof (session_point env taskId pollInterval fuel 0
                  ltac:(intros i Hi; lia)) as Hpt.
    change (session taskId pollInterval)
      with (ITree.iter
              (fun _ : unit => poll taskId (interval_of pollInterval)) tt).
    change init_world
      with (poll_start env taskId (interval_of pollInterval) 0).
    destruct (run env fuel _ _) as [w [r|]].
    + destruct Hpt as (n & _ & Hc & _). rewrite Hall in Hc. discriminate.
    + split; [reflexivity|]. exact (proj1 Hpt).
  - intros n. apply polled_takes_place. apply polled_iff.
    intros i _. apply Hall.
Qed.

Lemma polls_for_ever_witness :
  (forall i, continues Scenarios.env_queued i = true)
  /\ (forall fuel,
        snd (run Scenarios.env_queued fuel (session (js "task-1") None)
               init_world) = None
        /\ outcome (fst (run Scenarios.env_queued fuel
                           (session (js "task-1") None) init_world)) = None)
  /\ forall n,
       exists w,
         reaches Scenarios.env_queued (session (js "task-1") None) init_world w
         /\ In (EvGet n (status_url (js "task-1"))) (trace w).
Proof.
  assert (H : forall i, continues Scenarios.env_queued i = true).
  { intros i. reflexivity. }
  split; [exact H|].
  exact (polls_for_ever (js "task-1") None Scenarios.env_queued H).
Defined.

(** The effects a poll can have. *)
Lemma poll_event_shape env taskId ms j e :
  In e (poll_events env taskId ms j) ->
  match e with
  | EvGet i url => i = j /\ url = status_url taskId
  | EvSetTimeout t => t = ms
  | EvPost _ _ _ _ | EvPostSettled _ _ => False
  | _ => True
  end.
Proof.
  unfold poll_events, verdict.
  destruct (status_reply env j) as [response|err];
    [destruct (observer env j (body response)) as [updated|v];
     [destruct (JsString.eqb (status updated) (js "success"));
      [|destruct (JsString.eqb (status updated) (js "failure"))]|]|];
    cbn; intros H;
    repeat (destruct H as [<-|H]; [cbn; auto|]); contradiction.
Qed.

(** X4. At every point of a session, every GET it has issued is for the URL
    [/voice/status/] followed by the identifier of its task, every timer it
    has set has the interval of the session, and it has issued no POST. *)
Theorem session_requests_own_status taskId pollInterval env w :
  reaches env (session taskId pollInterval) init_world w ->
  (forall i url,
     In (EvGet i url) (trace w) -> url = js "/voice/status/" ++ taskId)
  /\ (forall t,
        In (EvSetTimeout t) (trace w) ->
        t = match pollInterval with Some ms => ms | None => 2000%Z end)
  /\ (forall i url formData headers,
        ~ In (EvPost i url formData headers) (trace w)).
Proof.
  intros Hreach. repeat split.
  - intros i url Hin.
    destruct (event_of_poll env taskId pollInterval w _ Hreach Hin) as (j & Hj).
    apply poll_event_shape in Hj. exact (proj2 Hj).
  - intros t Hin.
    destruct (event_of_poll env taskId pollInterval w _ Hreach Hin) as (j & Hj).
    apply poll_event_shape in Hj. exact Hj.
  - intros i url formData headers Hin.
    destruct (event_of_poll env taskId pollInterval w _ Hreach Hin) as (j & Hj).
    apply poll_event_shape in Hj. exact Hj.
Qed.

Lemma session_requests_own_status_witness :
  reaches Scenarios.env_four (session (js "task-1") (Some 500%Z)) init_world
    (fst (run Scenarios.env_four 12 (session (js "task-1") (Some 500%Z))
            init_world))
  /\ (forall i url,
        In (EvGet i url)
          (trace (fst (run Scenarios.env_four 12
                         (session (js "task-1") (Some 500%Z)) init_world))) ->
        url = js "/voice/status/" ++ js "task-1")
  /\ (forall t,
        In (EvSetTimeout t)
          (trace (fst (run Scenarios.env_four 12
                         (session (js "task-1") (Some 500%Z)) init_world))) ->
        t = 500%Z)
  /\ (forall i url formData headers,
        ~ In (EvPost i url formData headers)
            (trace (fst (run Scenarios.env_four 12
                           (session (js "task-1") (Some 500%Z)) init_world)))).
Proof.
  assert (H : reaches Scenarios.env_four (session (js "task-1") (Some 500%Z))
                init_world
                (fst (run Scenarios.env_four 12
                        (session (js "task-1") (Some 500%Z)) init_world))).
  { exists 12. vm_compute. reflexivity. }
  split; [exact H|].
  exact (session_requests_own_status (js "task-1") (Some 500%Z)
           Scenarios.env_four _ H).
Defined.

(** X5. A session that is over has either resolved the promise or rejected
    it, and for a cause in its last poll. If it has resolved it, its last
    GET fetched a snapshot, the observer returned on it, and the value of
    the promise is that snapshot as the observer left it, whose status is
    then [success]; the snapshot as fetched is the last the observer was
    invoked with. If it has rejected it, the value is the transport error of
    its last GET; or what the observer threw on the snapshot of its last
    GET; or, the observer having returned and left that snapshot with the
    status [failure], the [Error] made of the [error_message] it left, or
    of ["Task failed"]. *)
Theorem outcome_has_a_cause taskId pollInterval env w :
  returns env (session taskId pollInterval) init_world tt w ->
  exists n,
    gets w = S n
    /\ match outcome w with
       | Some (Resolved s) =>
           status s = js "success"
           /\ exists response,
                status_reply env n = Normal response
                /\ observer env n (body response) = Normal s
                /\ exists before,
                     observed (trace w) = before ++ [body response]
       | Some (Rejected v) =>
           status_reply env n = Throw v
           \/ exists response,
                status_reply env n = Normal response
                /\ (observer env n (body response) = Throw v
                    \/ exists updated,
                         observer env n (body response) = Normal updated
                         /\ status updated = js "failure"
                         /\ v = new_Error
                                  (or_else (error_message updated)
                                     (js "Task failed")))
       | None => False
       end.
Proof.
  intros Hret.
  destruct (session_end_form env taskId pollInterval w Hret) as (n & Hp & Hc & ->).
  exists n. split; [reflexivity|].
  cbn [trace outcome after_poll poll_start].
  revert Hc. rewrite observed_app.
  unfold continues, poll_outcome, poll_events, verdict.
  destruct (status_reply env n) as [response|err]; [|left; reflexivity].
  destruct (observer env n (body response)) as [updated|v] eqn:Ho.
  - destruct (JsString.eqb (status updated) (js "success")) eqn:Es.
    + intros _. apply eqb_eq in Es. split; [exact Es|].
      exists response. split; [reflexivity|]. split; [exact Ho|].
      eexists. cbn. reflexivity.
    + destruct (JsString.eqb (status updated) (js "failure")) eqn:Ef;
        [|discriminate].
      intros _. apply eqb_eq in Ef. right. exists response.
      split; [reflexivity|]. right. exists updated. auto.
  - intros _. right. exists response. split; [reflexivity|]. left. exact Ho.
Qed.

Lemma outcome_has_a_cause_witness :
  returns Scenarios.env_four (session (js "task-1") None) init_world tt
    Examples.final_four
  /\ exists n,
       gets Examples.final_four = S n
       /\ match outcome Examples.final_four with
          | Some (Resolved s) =>
              status s = js "success"
              /\ exists response,
                   status_reply Scenarios.env_four n = Normal response
                   /\ observer Scenarios.env_four n (body response) = Normal s
                   /\ exists before,
                        observed (trace Examples.final_four)
                        = before ++ [body response]
          | Some (Rejected v) =>
              status_reply Scenarios.env_four n = Throw v
              \/ exists response,
                   status_reply Scenarios.env_four n = Normal response
                   /\ (observer Scenarios.env_four n (body response) = Throw v
                       \/ exists updated,
                            observer Scenarios.env_four n (body response)
                            = Normal updated
                            /\ status updated = js "failure"
                            /\ v = new_Error
                                     (or_else (error_message updated)
                                        (js "Task failed")))
          | None => False
          end.
Proof.
  assert (H : returns Scenarios.env_four (session (js "task-1") None)
                init_world tt Examples.final_four).
  { exists 19, 0. vm_compute. reflexivity. }
  split; [exact H|].
  exact (outcome_has_a_cause (js "task-1") None Scenarios.env_four
           Examples.final_four H).
Defined.

(* ===================================================================== *)
(** ** The validator and the icons *)
(* ===================================================================== *)

Import Components.

(** A needle found in a string is found in every string around it. *)
Lemma includes_extend (s needle before rest : JsString.t) :
  JsString.includes s needle = true ->
  JsString.includes (before ++ s ++ rest) needle = true.
Proof.
  rewrite !includes_spec. intros (x & y & ->).
  exists (before ++ x), (y ++ rest). now rewrite <- !app_assoc.
Qed.

Lemma truthy_trim (url : JsString.t) :
  JsString.truthy (JsString.trim url)
  = negb (forallb JsString.is_white_space url).
Proof.
  destruct (forallb JsString.is_white_space url) eqn:E.
  - apply trim_nil in E. rewrite E. reflexivity.
  - destruct (JsString.trim url) eqn:T; [|reflexivity].
    apply trim_nil in T. congruence.
Qed.

(** A valid result names a platform and has no error. *)
Lemma valid_result_shape URL_new url :
  isValid (Validation.validateVideoLink URL_new url) = true ->
  exists p,
    Validation.validateVideoLink URL_new url
    = {| isValid := true; platform := Some p; error := None |}.
Proof.
  unfold Validation.validateVideoLink.
  destruct (negb (JsString.truthy (JsString.trim url))); [discriminate|].
  destruct (URL_new url) as [u|]; [|discriminate].
  destruct (_ || _); [eauto|].
  destruct (JsString.includes _ (js "vimeo.com")); [eauto|].
  destruct (JsString.includes _ (js "drive.google.com")); [eauto|discriminate].
Qed.

(** An invalid result has one of the three messages and no platform. *)
Lemma invalid_result_shape URL_new url :
  isValid (Validation.validateVideoLink URL_new url) = false ->
  platform (Validation.validateVideoLink URL_new url) = None
  /\ (error (Validation.validateVideoLink URL_new url)
      = Some (js "Please enter a URL")
      /\ forallb JsString.is_white_space url = true
      \/ forallb JsString.is_white_space url = false
         /\ (error (Validation.validateVideoLink URL_new url)
             = Some (js "Please enter a valid URL")
             \/ error (Validation.validateVideoLink URL_new url)
                = Some (js "Only YouTube, Vimeo, and Google Drive links are supported"))).
Proof.
  unfold Validation.validateVideoLink. rewrite truthy_trim, negb_involutive.
  destruct (forallb JsString.is_white_space url); [auto|].
  destruct (URL_new url) as [u|]; [|auto].
  destruct (_ || _); [discriminate|].
  destruct (JsString.includes _ (js "vimeo.com")); [discriminate|].
  destruct (JsString.includes _ (js "drive.google.com")); [discriminate|auto].
Qed.

(** X6. The validator accepts a host for what it contains: when it accepts
    a link, it accepts every link that is not blank and whose hostname has
    the hostname of the first somewhere inside it. *)
Theorem lookalike_hosts_accepted URL_new url url' u u' before rest :
  URL_new url = Some u ->
  URL_new url' = Some u' ->
  Validation.hostname u' = before ++ Validation.hostname u ++ rest ->
  forallb JsString.is_white_space url' = false ->
  isValid (Validation.validateVideoLink URL_new url) = true ->
  exists p,
    Validation.validateVideoLink URL_new url'
    = {| isValid := true; platform := Some p; error := None |}.
Proof.
  intros Hu Hu' Hhost Hfilled Hvalid.
  apply valid_result_shape. revert Hvalid.
  unfold Validation.validateVideoLink.
  rewrite !truthy_trim, Hfilled, Hu, Hu', Hhost.
  destruct (negb (negb (forallb JsString.is_white_space url)));
    [discriminate|]. cbn [negb].
  pose proof (includes_extend (Validation.hostname u) (js "youtube.com")
                before rest) as Hy.
  pose proof (includes_extend (Validation.hostname u) (js "youtu.be")
                before rest) as Hb.
  pose proof (includes_extend (Validation.hostname u) (js "vimeo.com")
                before rest) as Hv.
  pose proof (includes_extend (Validation.hostname u) (js "drive.google.com")
                before rest) as Hd.
  destruct (JsString.includes (Validation.hostname u) (js "youtube.com")).
  { intros _. rewrite (Hy eq_refl). reflexivity. }
  destruct (JsString.includes (Validation.hostname u) (js "youtu.be")).
  { intros _. rewrite (Hb eq_refl), orb_true_r. reflexivity. }
  cbn [orb].
  destruct (JsString.includes (Validation.hostname u) (js "vimeo.com")).
  { intros _. rewrite (Hv eq_refl). destruct (_ || _); reflexivity. }
  destruct (JsString.includes (Validation.hostname u) (js "drive.google.com"));
    [|discriminate].
  intros _. rewrite (Hd eq_refl). destruct (_ || _); [reflexivity|].
  destruct (JsString.includes _ (js "vimeo.com")); reflexivity.
Qed.

Lemma lookalike_hosts_accepted_witness :
  Examples.lookalike_parser (js "https://youtube.com/watch?v=1")
  = Some {| Validation.hostname := js "youtube.com" |}
  /\ Examples.lookalike_parser (js "https://youtube.com.example.org/watch?v=1")
     = Some {| Validation.hostname := js "youtube.com.example.org" |}
  /\ js "youtube.com.example.org" = [] ++ js "youtube.com" ++ js ".example.org"
  /\ exists p,
       Validation.validateVideoLink Examples.lookalike_parser
         (js "https://youtube.com.example.org/watch?v=1")
       = {| isValid := true; platform := Some p; error := None |}.
Proof.
  split; [reflexivity|]. split; [reflexivity|]. split; [reflexivity|].
  apply (lookalike_hosts_accepted Examples.lookalike_parser
           (js "https://youtube.com/watch?v=1")
           (js "https://youtube.com.example.org/watch?v=1")
           {| Validation.hostname := js "youtube.com" |}
           {| Validation.hostname := js "youtube.com.example.org" |}
           [] (js ".example.org")); reflexivity.
Defined.

(** X7. [getPlatformIcon] tells the three platforms apart, and it gives the
    icon of a plain link to exactly the strings that are not the name of a
    platform. *)
Theorem platform_icon_identifies :
  (forall p q,
     getPlatformIcon (Platform_str p) = getPlatformIcon (Platform_str q) ->
     p = q)
  /\ (forall s,
        getPlatformIcon s = [55357; 56599]%N <->
        forall p, s <> Platform_str p).
Proof.
  split.
  - intros [] []; vm_compute; intros H; try reflexivity; discriminate H.
  - intros s. unfold getPlatformIcon.
    destruct (JsString.eqb s (js "youtube")) eqn:Ey.
    { apply eqb_eq in Ey. split; [discriminate|].
      intros H. destruct (H youtube Ey). }
    destruct (JsString.eqb s (js "vimeo")) eqn:Ev.
    { apply eqb_eq in Ev. split; [discriminate|].
      intros H. destruct (H vimeo Ev). }
    destruct (JsString.eqb s (js "google-drive")) eqn:Eg.
    { apply eqb_eq in Eg. split; [discriminate|].
      intros H. destruct (H google_drive Eg). }
    apply eqb_neq in Ey, Ev, Eg.
    split; [|reflexivity]. intros _ []; assumption.
Qed.

(* ===================================================================== *)
(** ** The link tab and the upload tab *)
(* ===================================================================== *)

(** After the input has changed, the state is that of the last change. *)
Lemma LinkTab_after_last URL_new values :
  values <> [] ->
  LinkTab_after URL_new values
  = {| link := last values [];
       validation :=
         if negb (forallb JsString.is_white_space (last values []))
         then Validation.validateVideoLink URL_new (last values [])
         else not_validated |}.
Proof.
  intros Hne. destruct (exists_last Hne) as (before & value & ->).
  unfold LinkTab_after. rewrite fold_left_app, last_last. cbn.
  unfold handleLinkChange. rewrite truthy_trim. reflexivity.
Qed.

(** The validation of a blank string is not valid. *)
Lemma blank_not_valid URL_new url :
  forallb JsString.is_white_space url = true ->
  isValid (Validation.validateVideoLink URL_new url) = false.
Proof.
  intros H. unfold Validation.validateVideoLink.
  rewrite truthy_trim, H. reflexivity.
Qed.

(** X8. Whatever has been typed in the link tab, a click on its button calls
    [onLinkSubmit] exactly when something has been typed and the validator
    accepts the text as it stands; the call passes that text and the
    platform the validator found. *)
Theorem link_tab_submits_validated URL_new values l p :
  handleSubmit (LinkTab_after URL_new values) = Some (l, p)
  <-> values <> []
      /\ last values [] = l
      /\ Validation.validateVideoLink URL_new l
         = {| isValid := true; platform := Some p; error := None |}.
Proof.
  destruct values as [|v values].
  - cbn. split; [discriminate|]. intros [H _]. contradiction.
  - assert (Hne : v :: values <> []) by discriminate.
    rewrite (LinkTab_after_last URL_new _ Hne).
    remember (last (v :: values) []) as text eqn:Htext. clear Htext.
    unfold handleSubmit. cbn [link validation].
    destruct (forallb JsString.is_white_space text) eqn:Eb; cbn [negb].
    + cbn. split; [discriminate|]. intros (_ & <- & Hv).
      pose proof (blank_not_valid URL_new text Eb) as Hb.
      rewrite Hv in Hb. discriminate.
    + destruct (isValid (Validation.validateVideoLink URL_new text)) eqn:Ev.
      * destruct (valid_result_shape URL_new text Ev) as (q & Hq).
        rewrite Hq. cbn. split.
        -- intros [= <- <-]. auto.
        -- intros (_ & <- & Hv). rewrite Hq in Hv. injection Hv as ->.
           reflexivity.
      * split; [discriminate|]. intros (_ & <- & Hv).
        rewrite Hv in Ev. discriminate.
Qed.

(** X9. Whatever has been typed in the link tab: when the text is blank the
    tab shows neither the success line nor the error alert, and a click
    submits nothing; otherwise it shows either the success line, with the
    icon of a platform, or the alert with one of the two messages
    ["Please enter a valid URL"] and
    ["Only YouTube, Vimeo, and Google Drive links are supported"], and then
    a click submits nothing. The message ["Please enter a URL"] of the
    validator is never shown. *)
Theorem link_tab_feedback URL_new values :
  error_alert (LinkTab_after URL_new values) <> Some (js "Please enter a URL")
  /\ (forallb JsString.is_white_space (link (LinkTab_after URL_new values)) = true ->
      success_icon (LinkTab_after URL_new values) = None
      /\ error_alert (LinkTab_after URL_new values) = None
      /\ handleSubmit (LinkTab_after URL_new values) = None)
  /\ (forallb JsString.is_white_space (link (LinkTab_after URL_new values)) = false ->
      (exists p,
         success_icon (LinkTab_after URL_new values)
         = Some (getPlatformIcon (Platform_str p))
         /\ getPlatformIcon (Platform_str p) <> [55357; 56599]%N
         /\ error_alert (LinkTab_after URL_new values) = None
         /\ handleSubmit (LinkTab_after URL_new values)
            = Some (link (LinkTab_after URL_new values), p))
      \/ (success_icon (LinkTab_after URL_new values) = None
          /\ handleSubmit (LinkTab_after URL_new values) = None
          /\ (error_alert (LinkTab_after URL_new values)
              = Some (js "Please enter a valid URL")
              \/ error_alert (LinkTab_after URL_new values)
                 = Some (js "Only YouTube, Vimeo, and Google Drive links are supported")))).
Proof.
  destruct values as [|v values].
  { cbn. repeat split; try discriminate. }
  assert (Hne : v :: values <> []) by discriminate.
  rewrite (LinkTab_after_last URL_new _ Hne).
  remember (last (v :: values) []) as text eqn:Htext. clear Htext.
  unfold error_alert, success_icon, handleSubmit. cbn [link validation].
  destruct (forallb JsString.is_white_space text) eqn:Eb; cbn [negb].
  - cbn. destruct (JsString.truthy text); cbn;
      (split; [discriminate|]);
      (split; [intros _; repeat split | intros H; discriminate H]).
  - assert (Ht : JsString.truthy text = true).
    { destruct text; [discriminate|reflexivity]. }
    rewrite Ht. cbn [andb].
    destruct (isValid (Validation.validateVideoLink URL_new text)) eqn:Ev.
    + destruct (valid_result_shape URL_new text Ev) as (q & Hq).
      rewrite Hq. cbn. split; [discriminate|]. split; [discriminate|].
      intros _. left. exists q. repeat split.
      destruct q; vm_compute; discriminate.
    + destruct (invalid_result_shape URL_new text Ev) as (Hp & [[_ Hb]|[_ He]]);
        [congruence|].
      cbn [negb].
      destruct He as [-> | ->]; cbn -[js]; (split; [discriminate|]);
        (split; [discriminate|]); intros _; right; auto.
Qed.

(** X10. [handleFileSelection] passes a file on to [onFileSelect], with its
    source, exactly when its type is one of the seven of [validTypes] and its
    size is at most 104857600 bytes, the limit included; a file of another
    type is refused with the message about the type, whatever its size, and
    a file of a valid type and a larger size with the message about the
    size. *)
Theorem file_accepted_iff f source :
  (handleFileSelection f source = OnFileSelect f source
   <-> In (mime_type f) validTypes /\ (size f <= 104857600)%Z)
  /\ (~ In (mime_type f) validTypes ->
      handleFileSelection f source
      = Alert (js "Please select a valid video or audio file"))
  /\ (In (mime_type f) validTypes -> (104857600 < size f)%Z ->
      handleFileSelection f source
      = Alert (js "File size must be less than 100MB")).
Proof.
  assert (Hin : existsb (JsString.eqb (mime_type f)) validTypes = true
                <-> In (mime_type f) validTypes).
  { rewrite existsb_exists. split.
    - intros (t & Ht & E). apply eqb_eq in E. now subst.
    - intros H. exists (mime_type f). split; [exact H|apply eqb_refl]. }
  unfold handleFileSelection.
  change (100 * 1024 * 1024)%Z with 104857600%Z.
  destruct (existsb (JsString.eqb (mime_type f)) validTypes) eqn:E; cbn [negb].
  - assert (Hty : In (mime_type f) validTypes) by (apply Hin; reflexivity).
    destruct (Z.gtb_spec (size f) 104857600) as [Hbig|Hok].
    + split; [split; [discriminate | intros [_ H]; lia]|].
      split; [intros H; contradiction | reflexivity].
    + split; [split; [intros _; split; [exact Hty | exact Hok] | reflexivity]|].
      split; [intros H; contradiction | intros _ H; lia].
  - assert (Hn : ~ In (mime_type f) validTypes).
    { intros H. apply Hin in H. discriminate. }
    split; [split; [discriminate | intros [H _]; contradiction]|].
    split; [reflexivity | intros H _; contradiction].
Qed.

(* ===================================================================== *)
(** ** The upload page *)
(* ===================================================================== *)

(** A mutation: one POST of the form of the request, then [onSuccess] or
    [onError]. *)
Lemma mutate_returns JSON_stringify env request st :
  returns env (mutate JSON_stringify request st) init_world
    match submit_reply env (js "/voice/voice-clone")
            (buildFormData JSON_stringify request) with
    | Normal response =>
        {| activeTab := activeTab st; selectedFile := None;
           selectedLink := []; mutation := Success (body response) |}
    | Throw error =>
        {| activeTab := activeTab st; selectedFile := selectedFile st;
           selectedLink := selectedLink st; mutation := Failure error |}
    end
    {| gets := 0;
       posts := [(js "/voice/voice-clone", buildFormData JSON_stringify request)];
       updates := 0; outcome := None;
       trace :=
         [EvPost 0 (js "/voice/voice-clone")
            (buildFormData JSON_stringify request)
            [(js "Content-Type", js "multipart/form-data")];
          EvPostSettled 0
            (submit_reply env (js "/voice/voice-clone")
               (buildFormData JSON_stringify request))] |}.
Proof.
  exists 2, 0. unfold mutate, submitVoiceClone. run_steps.
  destruct (submit_reply env (js "/voice/voice-clone")
              (buildFormData JSON_stringify request)); run_steps; reflexivity.
Qed.

(** X11. The link tab on the upload page, after any typing and a click on
    its button. When no submission is pending and the validator accepts the
    text as it stands, with a platform, the page issues one POST to
    [/voice/voice-clone] whose form is exactly the text under ["link"], the
    name of that platform under ["source"] and ["link"] under ["type"]; when
    the collaborator answers, the page clears the selected link and keeps
    the answer, and when the request fails it keeps the link and the error.
    When nothing was typed, or the validator refuses the text, or a
    submission is pending, the page issues no request and does not
    change. *)
Theorem typed_link_is_posted URL_new JSON_stringify env values st :
  exists w st',
    returns env (submit_link JSON_stringify URL_new values st) init_world st' w
    /\ (forall p,
          isPending st = false ->
          values <> [] ->
          Validation.validateVideoLink URL_new (last values [])
          = {| isValid := true; platform := Some p; error := None |} ->
          trace w =
          [EvPost 0 (js "/voice/voice-clone")
             [(js "link", FormString (last values []));
              (js "source", FormString (Platform_str p));
              (js "type", FormString (js "link"))]
             [(js "Content-Type", js "multipart/form-data")];
           EvPostSettled 0
             (submit_reply env (js "/voice/voice-clone")
                [(js "link", FormString (last values []));
                 (js "source", FormString (Platform_str p));
                 (js "type", FormString (js "link"))])]
          /\ st' =
             match submit_reply env (js "/voice/voice-clone")
                     [(js "link", FormString (last values []));
                      (js "source", FormString (Platform_str p));
                      (js "type", FormString (js "link"))] with
             | Normal response =>
                 {| activeTab := activeTab st; selectedFile := None;
                    selectedLink := []; mutation := Success (body response) |}
             | Throw error =>
                 {| activeTab := activeTab st; selectedFile := selectedFile st;
                    selectedLink := last values []; mutation := Failure error |}
             end)
    /\ (values = []
        \/ isValid (Validation.validateVideoLink URL_new (last values [])) = false
        \/ isPending st = true ->
        trace w = [] /\ st' = st).
Proof.
  unfold submit_link, submit_disabled.
  destruct values as [|v values].
  { cbn. exists init_world, st. split; [exists 0, 0; reflexivity|].
    split; [intros p _ H; contradiction | auto]. }
  assert (Hne : v :: values <> []) by discriminate.
  rewrite (LinkTab_after_last URL_new _ Hne).
  remember (last (v :: values) []) as text eqn:Htext. clear Htext.
  unfold handleSubmit. cbn [link validation].
  destruct (forallb JsString.is_white_space text) eqn:Eb; cbn [negb].
  - cbn. exists init_world, st. split; [exists 0, 0; reflexivity|].
    split; [|auto]. intros p _ _ Hv.
    pose proof (blank_not_valid URL_new text Eb) as Hb.
    rewrite Hv in Hb. discriminate.
  - destruct (isValid (Validation.validateVideoLink URL_new text)) eqn:Ev;
      cbn [negb orb].
    + destruct (isPending st) eqn:Ep.
      { exists init_world, st. split; [exists 0, 0; reflexivity|].
        split; [|auto]. intros p H. discriminate. }
      destruct (valid_result_shape URL_new text Ev) as (q & Hq).
      rewrite Hq. cbn [platform]. unfold handleLinkSubmit.
      eexists. eexists. split; [apply mutate_returns|].
      split.
      * intros p _ _ [= <-]. cbn [trace]. split.
        -- destruct q; reflexivity.
        -- replace (buildFormData JSON_stringify _)
             with [(js "link", FormString text);
                   (js "source", FormString (Platform_str q));
                   (js "type", FormString (js "link"))]
             by (destruct q; reflexivity).
           reflexivity.
      * intros [H|[H|H]]; discriminate.
    + exists init_world, st. split; [exists 0, 0; reflexivity|].
      split; [|auto]. intros p _ _ Hv. rewrite Hv in Ev. discriminate.
Qed.

(** X12. [handleDrop] of the upload tab on the upload page. When the first
    file has one of the valid types and at most 104857600 bytes, the page
    issues one POST to [/voice/voice-clone] whose form is exactly that file
    under ["file"], ["local"] under ["source"] and ["file"] under ["type"],
    whatever the other files are; when the collaborator answers, the page
    clears the selected file, and when the request fails it keeps the file
    and the error. When nothing was dropped or the first file is refused,
    the page issues no request and does not change. *)
Theorem dropped_file_is_posted JSON_stringify env files st :
  exists w st',
    returns env (drop_files JSON_stringify files st) init_world st' w
    /\ (forall f others,
          files = f :: others ->
          In (mime_type f) validTypes -> (size f <= 104857600)%Z ->
          trace w =
          [EvPost 0 (js "/voice/voice-clone")
             [(js "file", FormFile (file f));
              (js "source", FormString (js "local"));
              (js "type", FormString (js "file"))]
             [(js "Content-Type", js "multipart/form-data")];
           EvPostSettled 0
             (submit_reply env (js "/voice/voice-clone")
                [(js "file", FormFile (file f));
                 (js "source", FormString (js "local"));
                 (js "type", FormString (js "file"))])]
          /\ st' =
             match submit_reply env (js "/voice/voice-clone")
                     [(js "file", FormFile (file f));
                      (js "source", FormString (js "local"));
                      (js "type", FormString (js "file"))] with
             | Normal response =>
                 {| activeTab := activeTab st; selectedFile := None;
                    selectedLink := []; mutation := Success (body response) |}
             | Throw error =>
                 {| activeTab := activeTab st; selectedFile := Some f;
                    selectedLink := selectedLink st;
                    mutation := Failure error |}
             end)
    /\ (files = []
        \/ (exists f others,
              files = f :: others
              /\ (~ In (mime_type f) validTypes \/ (104857600 < size f)%Z)) ->
        trace w = [] /\ st' = st).
Proof.
  unfold drop_files, handleDrop. cbn [snd].
  destruct files as [|f others].
  { exists init_world, st. split; [exists 0, 0; reflexivity|].
    split; [discriminate | auto]. }
  assert (Hin : existsb (JsString.eqb (mime_type f)) validTypes = true
                <-> In (mime_type f) validTypes).
  { rewrite existsb_exists. split.
    - intros (t & Ht & E). apply eqb_eq in E. now subst.
    - intros H. exists (mime_type f). split; [exact H|apply eqb_refl]. }
  unfold handleFileSelection.
  change (100 * 1024 * 1024)%Z with 104857600%Z.
  destruct (existsb (JsString.eqb (mime_type f)) validTypes) eqn:E; cbn [negb].
  - assert (Hty : In (mime_type f) validTypes) by (apply Hin; reflexivity).
    destruct (Z.gtb_spec (size f) 104857600) as [Hbig|Hok].
    + exists init_world, st. split; [exists 0, 0; reflexivity|].
      split; [|auto]. intros g rest [= <- <-] _ Hle. lia.
    + unfold handleFileSelect. eexists. eexists.
      split; [apply mutate_returns|]. split.
      * intros g rest [= <- <-] _ _. cbn [trace]. split; reflexivity.
      * intros [H|(g & rest & [= <- <-] & [H|H])];
          [discriminate | contradiction | lia].
  - assert (Hn : ~ In (mime_type f) validTypes).
    { intros H. apply Hin in H. discriminate. }
    exists init_world, st. split; [exists 0, 0; reflexivity|].
    split; [|auto]. intros g rest [= <- <-] H _. contradiction.
Qed.
